(** * GLS shipment upload: parcels, transport client, ledger, orchestrator

    A shallow embedding of [address_validator/gls_models.py],
    [gls_client.py], [upload_tracker.py], [gls_processor.py] and the GLS
    constants of [config.py], with the properties of the upload engine
    stated and proved over it.

    Conventions of the embedding.
    - A Python [str] is a [string]; upper(), lower() and strip() are the
      ASCII ones (characters above 127 are caseless and never white space).
    - A Python [dict] with string keys is a [gmap string _].
    - lxml, zeep, hashlib, pathlib, the clock and the file system are the
      environment ([Env]): their answers are arbitrary functions of the
      history of effects so far.
    - Python exceptions are a sum type; state written before a raise stays
      written. *)

From Stdlib Require Import ZArith QArith.QArith_base Lia List Ascii String Bool.
From stdpp Require Import base option list gmap strings pretty.

Import ListNotations.
Set Warnings "-register-all".
Local Open Scope string_scope.
Local Open Scope Z_scope.
Local Open Scope list_scope.

(* ===================================================================== *)
(** ** Python string operations *)
(* ===================================================================== *)

Module PyStr.

(** [len(s)] *)
Definition len (s : string) : nat := String.length s.

(** [s[:n]] *)
Fixpoint take (n : nat) (s : string) : string :=
  match n, s with
  | O, _ => EmptyString
  | S _, EmptyString => EmptyString
  | S n', String c s' => String c (take n' s')
  end.

(** [bool(s)] *)
Definition truthy (s : string) : bool :=
  match s with EmptyString => false | String _ _ => true end.

(** [a or b] on strings *)
Definition or_ (a b : string) : string := if truthy a then a else b.

Definition code (c : ascii) : nat := nat_of_ascii c.

Definition is_lower (c : ascii) : bool := ((97 <=? code c) && (code c <=? 122))%nat.
Definition is_upper (c : ascii) : bool := ((65 <=? code c) && (code c <=? 90))%nat.

(** white space of [str.strip()] below 128: TAB..CR, FS..US and space *)
Definition is_space (c : ascii) : bool :=
  (((9 <=? code c) && (code c <=? 13)) || ((28 <=? code c) && (code c <=? 32)))%nat.

Definition upper_char (c : ascii) : ascii :=
  if is_lower c then ascii_of_nat (code c - 32) else c.
Definition lower_char (c : ascii) : ascii :=
  if is_upper c then ascii_of_nat (code c + 32) else c.

Fixpoint map_chars (f : ascii -> ascii) (s : string) : string :=
  match s with
  | EmptyString => EmptyString
  | String c s' => String (f c) (map_chars f s')
  end.

(** [s.upper()], [s.lower()] *)
Definition upper : string -> string := map_chars upper_char.
Definition lower : string -> string := map_chars lower_char.


Fixpoint lstrip (s : string) : string :=
  match s with
  | EmptyString => EmptyString
  | String c s' => if is_space c then lstrip s' else s
  end.

(** the string without its trailing white space *)
Fixpoint rstrip (s : string) : string :=
  match s with
  | EmptyString => EmptyString
  | String c s' =>
      match rstrip s' with
      | EmptyString => if is_space c then EmptyString else String c EmptyString
      | r => String c r
      end
  end.

(** [s.strip()] *)
Definition strip (s : string) : string := rstrip (lstrip s).

Fixpoint zeros (n : nat) : string :=
  match n with O => EmptyString | S n' => String "0" (zeros n') end.

(** [s.zfill(width)]: a leading sign stays in front of the padding *)
Definition zfill (width : nat) (s : string) : string :=
  if (width <=? len s)%nat then s
  else
    let fill := zeros (width - len s) in
    match s with
    | String c rest =>
        if (Ascii.eqb c "+" || Ascii.eqb c "-")%bool
        then String c (fill +:+ rest)
        else fill +:+ s
    | EmptyString => fill
    end.

Fixpoint starts_with (p s : string) : bool :=
  match p, s with
  | EmptyString, _ => true
  | String a p', String b s' => Ascii.eqb a b && starts_with p' s'
  | String _ _, EmptyString => false
  end.

Fixpoint drop (n : nat) (s : string) : string :=
  match n, s with
  | O, _ => s
  | S _, EmptyString => EmptyString
  | S n', String _ s' => drop n' s'
  end.

(** [s.replace(old, new)] for a non-empty [old]: left to right, without
    overlap. [fuel] bounds the number of characters still to scan. *)
Fixpoint replace_go (fuel : nat) (old new s : string) : string :=
  match fuel with
  | O => s
  | S fuel' =>
      match s with
      | EmptyString => EmptyString
      | String c s' =>
          if starts_with old s
          then new +:+ replace_go fuel' old new (drop (len old) s)
          else String c (replace_go fuel' old new s')
      end
  end.

Definition replace (old new s : string) : string := replace_go (len s) old new s.

(** [sep.join(parts)] *)
Fixpoint join (sep : string) (parts : list string) : string :=
  match parts with
  | [] => EmptyString
  | [p] => p
  | p :: rest => p +:+ sep +:+ join sep rest
  end.

(** [str(n)] for an [int] *)
Definition of_int (n : Z) : string := pretty n.

End PyStr.

(* ===================================================================== *)
(** ** config.py: limits and retry constants of the GLS API *)
(* ===================================================================== *)

Record Config := {
  GLS_MAX_PARCELS_PER_BATCH : nat;
  GLS_RETRY_ATTEMPTS : nat;
  GLS_RETRY_DELAY : Z          (* seconds, base of the exponential backoff *)
}.

Definition config : Config :=
  {| GLS_MAX_PARCELS_PER_BATCH := 400;
     GLS_RETRY_ATTEMPTS := 3;
     GLS_RETRY_DELAY := 2 |}.

(* ===================================================================== *)
(** ** gls_models.py *)
(* ===================================================================== *)

Record GLSCredentials := {
  sede : string;
  codice_cliente : string;
  password : string;
  codice_contratto : string
}.

Definition is_valid (c : GLSCredentials) : bool :=
  PyStr.truthy (sede c) && PyStr.truthy (codice_cliente c)
  && PyStr.truthy (password c) && PyStr.truthy (codice_contratto c).

Record GLSParcel := {
  ragione_sociale : string;
  indirizzo : string;
  localita : string;
  zipcode : string;
  provincia : string;
  colli : Z;
  peso : Q;
  note : string;
  email : string;
  cellulare : string;
  bda : string;
  contrassegno : Q;
  importo_assicurato : Q
}.

(** [if len(s) > n: s = s[:n]] *)
Definition truncate (n : nat) (s : string) : string :=
  if (n <? PyStr.len s)%nat then PyStr.take n s else s.

(** [GLSParcel.__post_init__] *)
Definition post_init (p : GLSParcel) : GLSParcel :=
  {| ragione_sociale := truncate 35 (ragione_sociale p);
     indirizzo := truncate 35 (indirizzo p);
     localita := localita p;
     zipcode := PyStr.take 5 (PyStr.zfill 5 (PyStr.strip (zipcode p)));
     provincia := PyStr.upper (truncate 2 (provincia p));
     colli := colli p;
     peso := peso p;
     note := truncate 40 (note p);
     email := email p;
     cellulare := cellulare p;
     bda := bda p;
     contrassegno := contrassegno p;
     importo_assicurato := importo_assicurato p |}.

(** [GLSParcel(...)] as [_create_parcel] calls it: the two optional amounts
    keep their default 0.0. *)
Definition new_GLSParcel (ragione_sociale indirizzo localita zipcode provincia : string)
    (colli : Z) (peso : Q) (note email cellulare bda : string) : GLSParcel :=
  post_init
    {| ragione_sociale := ragione_sociale; indirizzo := indirizzo;
       localita := localita; zipcode := zipcode; provincia := provincia;
       colli := colli; peso := peso; note := note; email := email;
       cellulare := cellulare; bda := bda;
       contrassegno := 0; importo_assicurato := 0 |}.

Record GLSResponse := {
  numero_spedizione : string;
  esito : string;
  pdf_base64 : string;
  error_message : string;
  r_bda : string
}.

(** [GLSResponse()] *)
Definition empty_response : GLSResponse :=
  {| numero_spedizione := ""; esito := ""; pdf_base64 := "";
     error_message := ""; r_bda := "" |}.

(** [GLSResponse.is_success] *)
Definition is_success (r : GLSResponse) : bool :=
  String.eqb (PyStr.upper (esito r)) "OK" && PyStr.truthy (numero_spedizione r).

Record GLSUploadResult := {
  total : nat;
  uploaded : nat;
  skipped : nat;
  failed : nat;
  errors : list string;
  responses : list GLSResponse
}.

(** [GLSUploadResult()] *)
Definition empty_result : GLSUploadResult :=
  {| total := 0; uploaded := 0; skipped := 0; failed := 0;
     errors := []; responses := [] |}.

Definition add_success (response : GLSResponse) (r : GLSUploadResult) : GLSUploadResult :=
  {| total := total r; uploaded := uploaded r + 1; skipped := skipped r;
     failed := failed r; errors := errors r;
     responses := responses r ++ [response] |}.

Definition add_skip (reason : string) (r : GLSUploadResult) : GLSUploadResult :=
  {| total := total r; uploaded := uploaded r; skipped := skipped r + 1;
     failed := failed r;
     errors := if PyStr.truthy reason then errors r ++ ["SKIP: " +:+ reason] else errors r;
     responses := responses r |}.

Definition add_failure (error bda : string) (r : GLSUploadResult) : GLSUploadResult :=
  {| total := total r; uploaded := uploaded r; skipped := skipped r;
     failed := failed r + 1;
     errors := errors r ++
       [if PyStr.truthy bda then "ERRORE " +:+ bda +:+ ": " +:+ error
        else "ERRORE: " +:+ error];
     responses := responses r |}.

(* ===================================================================== *)
(** ** The environment: libraries, remote service, clock, file system *)
(* ===================================================================== *)

(** An lxml element: tag, text before the first child, child elements. *)
Inductive Element := Elem (tag : string) (text : option string) (children : list Element).

Definition tag_of (e : Element) : string := match e with Elem t _ _ => t end.
Definition text_of (e : Element) : option string := match e with Elem _ t _ => t end.
Definition children_of (e : Element) : list Element := match e with Elem _ _ cs => cs end.

(** The four SOAP methods with their arguments. The XML text that
    [_build_parcels_xml] sends is determined by the batch, which is what the
    embedding records. *)
Inductive Operation :=
| AddParcel (c : GLSCredentials) (parcels : list GLSParcel) (generate_pdf : bool)
| CloseWorkDay (c : GLSCredentials)
| ListSped (c : GLSCredentials) (date_from date_to : string)
| DeleteSped (c : GLSCredentials) (shipment_id : string).

(** What one call of a SOAP method does. *)
Inductive SoapOutcome :=
| Returned (xml : string)
| Faulted (e : string)            (* zeep.exceptions.Fault *)
| TransportFailed (e : string)    (* zeep.exceptions.TransportError *)
| Unexpected (e : string).        (* any other Exception *)

(** What writing the ledger file does. *)
Inductive IOOutcome :=
| IoOk
| IoFailOpen (e : string)                    (* IOError from open() *)
| IoFailWrite (written : nat) (e : string)   (* IOError from json.dump *)
| IoKilled (written : nat).                  (* the process dies while writing *)

(** Observable effects, in the order they happen. *)
Inductive Event :=
| EvConnect                      (* zeep.Client(GLS_ENDPOINT) *)
| EvCall (op : Operation)        (* one attempt of a SOAP method *)
| EvSleep (seconds : Z)          (* time.sleep *)
| EvNow                          (* datetime.now() *)
| EvSave (folder : string).      (* open(tracker_file, "w") and json.dump *)

Record Env := {
  md5_hexdigest : string -> string;       (* hashlib.md5(s.encode()).hexdigest() *)
  path_stem : string -> string;           (* Path(p).stem *)
  path_name : string -> string;           (* Path(p).name *)
  path_parent : string -> string;         (* str(Path(p).parent) *)
  fromstring : string -> string + Element; (* etree.fromstring; inl: XMLSyntaxError *)
  tostring : Element -> string;           (* etree.tostring(_, encoding="unicode") *)
  connect : list Event -> option string;  (* Some e: Client() raised e *)
  soap : list Event -> Operation -> SoapOutcome;
  now_iso : list Event -> string;         (* datetime.now().isoformat() *)
  io : list Event -> IOOutcome
}.

(* ===================================================================== *)
(** ** upload_tracker.py: the ledger data *)
(* ===================================================================== *)

Record UploadRecord := {
  u_file : string;
  u_row : Z;
  u_shipment_id : string;
  u_ragione_sociale : string;
  u_uploaded_at : string;
  u_response : option (gmap string string)
}.

Record HistoryEntry := {
  h_key : string;
  h_action : string;
  h_timestamp : string;
  h_shipment_id : string
}.

(** [self._data]: [{"uploads": {...}, "history": [...]}] *)
Record Data := {
  uploads : gmap string UploadRecord;
  history : list HistoryEntry
}.

Definition empty_data : Data := {| uploads := ∅; history := [] |}.

(** Content of a ledger file: the JSON text of [d], or a strict prefix of
    it ([written] characters), which is not JSON. *)
Inductive FileContent :=
| JsonText (d : Data)
| PartialText (d : Data) (written : nat).

Record UploadTracker := {
  base_path : string;
  _data : Data
}.

(* ===================================================================== *)
(** ** State and exceptions *)
(* ===================================================================== *)

Inductive Exc :=
| GLSClientError (msg : string)
| RuntimeError (msg : string)
| IndexError
| ValueError (msg : string)
| ProcessKilled.                 (* no handler ever sees it *)

(** [str(e)] *)
Definition str_exc (e : Exc) : string :=
  match e with
  | GLSClientError m | RuntimeError m | ValueError m => m
  | IndexError => "list index out of range"
  | ProcessKilled => ""
  end.

(** The state of one run: the history of effects, the ledger files by
    folder, whether the client holds a SOAP session, the tracker object and
    the result object. *)
Record St := {
  trace : list Event;
  disk : gmap string FileContent;
  client_open : bool;
  tracker : UploadTracker;
  result : GLSUploadResult
}.

Definition set_trace (f : list Event -> list Event) (s : St) : St :=
  {| trace := f (trace s); disk := disk s; client_open := client_open s;
     tracker := tracker s; result := result s |}.
Definition set_disk (f : gmap string FileContent -> gmap string FileContent) (s : St) : St :=
  {| trace := trace s; disk := f (disk s); client_open := client_open s;
     tracker := tracker s; result := result s |}.
Definition set_client_open (b : bool) (s : St) : St :=
  {| trace := trace s; disk := disk s; client_open := b;
     tracker := tracker s; result := result s |}.
Definition set_data (f : Data -> Data) (s : St) : St :=
  {| trace := trace s; disk := disk s; client_open := client_open s;
     tracker := {| base_path := base_path (tracker s); _data := f (_data (tracker s)) |};
     result := result s |}.
Definition set_result (f : GLSUploadResult -> GLSUploadResult) (s : St) : St :=
  {| trace := trace s; disk := disk s; client_open := client_open s;
     tracker := tracker s; result := f (result s) |}.

Inductive Res (A : Type) :=
| Ok (a : A)
| Raise (e : Exc).
Arguments Ok {A} a.
Arguments Raise {A} e.

(** Computations: a result or an exception, and the state left behind. *)
Definition M (A : Type) : Type := St -> Res A * St.

Definition ret {A} (a : A) : M A := fun s => (Ok a, s).
Definition raise {A} (e : Exc) : M A := fun s => (Raise e, s).
Definition bind {A B} (c : M A) (k : A -> M B) : M B :=
  fun s => match c s with
           | (Ok a, s') => k a s'
           | (Raise e, s') => (Raise e, s')
           end.
Definition get : M St := fun s => (Ok s, s).
Definition modify (f : St -> St) : M unit := fun s => (Ok tt, f s).
Definition emit (e : Event) : M unit := modify (set_trace (fun t => (t ++ [e])%list)).

Notation "x <- c ;; k" := (bind c (fun x => k))
  (at level 100, c at next level, right associativity).
Notation "c ;;; k" := (bind c (fun _ => k))
  (at level 100, right associativity).

(** [try: body except GLSClientError as e: handler(e)] *)
Definition try_except_GLSClientError {A} (body : M A) (handler : string -> M A) : M A :=
  fun s => match body s with
           | (Raise (GLSClientError m), s') => handler m s'
           | r => r
           end.

(** [for x in xs: body(x)] *)
Fixpoint for_each {A} (xs : list A) (body : A -> M unit) : M unit :=
  match xs with
  | [] => ret tt
  | x :: rest => body x ;;; for_each rest body
  end.

(** [for i, x in enumerate(xs): body(i, x)], counting from [i] *)
Fixpoint for_enumerate {A} (i : nat) (xs : list A) (body : nat -> A -> M unit) : M unit :=
  match xs with
  | [] => ret tt
  | x :: rest => body i x ;;; for_enumerate (S i) rest body
  end.

(* ===================================================================== *)
(** ** upload_tracker.py: UploadTracker *)
(* ===================================================================== *)

(** [d.get(k, "")] on a row *)
Definition get_str (row_data : gmap string string) (k : string) : string :=
  default "" (row_data !! k).

Section Tracker.
Context (E : Env).

(** [UploadTracker._load] for the ledger file of [folder] *)
Definition _load (folder : string) (files : gmap string FileContent) : Data :=
  match files !! folder with
  | Some (JsonText d) => d
  | Some (PartialText _ _) => empty_data      (* JSONDecodeError *)
  | None => empty_data                        (* no file *)
  end.

(** [UploadTracker(base_path)] *)
Definition new_UploadTracker (folder : string) (files : gmap string FileContent)
  : UploadTracker :=
  {| base_path := folder; _data := _load folder files |}.

(** [UploadTracker._save]: the file is opened for writing, which empties
    it, and the JSON text is written into it. *)
Definition _save : M unit :=
  s <- get ;;
  let folder := base_path (tracker s) in
  let d := _data (tracker s) in
  emit (EvSave folder) ;;;
  match io E (trace s) with
  | IoOk => modify (set_disk (insert folder (JsonText d)))
  | IoFailOpen e => raise (RuntimeError ("Impossibile salvare tracker: " +:+ e))
  | IoFailWrite n e =>
      modify (set_disk (insert folder (PartialText d n))) ;;;
      raise (RuntimeError ("Impossibile salvare tracker: " +:+ e))
  | IoKilled n =>
      modify (set_disk (insert folder (PartialText d n))) ;;;
      raise ProcessKilled
  end.

(** [UploadTracker._generate_row_key] *)
Definition _generate_row_key (file_path : string) (row_index : Z)
    (row_data : gmap string string) : string :=
  let file_name := path_stem E file_path in
  let key_parts := [get_str row_data "ragione_sociale";
                    get_str row_data "indirizzo";
                    get_str row_data "cap"] in
  let data_str := PyStr.lower (PyStr.join "|" key_parts) in
  let data_hash := PyStr.take 8 (md5_hexdigest E data_str) in
  file_name +:+ ":" +:+ PyStr.of_int row_index +:+ ":" +:+ data_hash.

(** [UploadTracker.is_uploaded] *)
Definition is_uploaded (file_path : string) (row_index : Z)
    (row_data : gmap string string) (t : UploadTracker) : bool :=
  let key := _generate_row_key file_path row_index row_data in
  bool_decide (is_Some (uploads (_data t) !! key)).

(** [datetime.now().isoformat()] *)
Definition now : M string :=
  s <- get ;;
  emit EvNow ;;;
  ret (now_iso E (trace s)).

(** [UploadTracker.mark_uploaded] *)
Definition mark_uploaded (file_path : string) (row_index : Z)
    (row_data : gmap string string) (shipment_id : string)
    (response_data : option (gmap string string)) : M unit :=
  let key := _generate_row_key file_path row_index row_data in
  uploaded_at <- now ;;
  let upload_record :=
    {| u_file := path_name E file_path;
       u_row := row_index;
       u_shipment_id := shipment_id;
       u_ragione_sociale := get_str row_data "ragione_sociale";
       u_uploaded_at := uploaded_at;
       u_response :=
         match response_data with
         | Some d => if bool_decide (d = ∅) then None else Some d
         | None => None
         end |} in
  modify (set_data (fun d =>
    {| uploads := <[key := upload_record]> (uploads d); history := history d |})) ;;;
  timestamp <- now ;;
  modify (set_data (fun d =>
    {| uploads := uploads d;
       history := history d ++
         [{| h_key := key; h_action := "upload";
             h_timestamp := timestamp; h_shipment_id := shipment_id |}] |})) ;;;
  _save.

End Tracker.

(* ===================================================================== *)
(** ** gls_client.py: GLSClient *)
(* ===================================================================== *)

(** All elements below [e], in document order. *)
Fixpoint descendants (e : Element) : list Element :=
  match e with
  | Elem _ _ cs => flat_map (fun c => c :: descendants c) cs
  end.

(** [root.findall(".//" + tag)] *)
Definition findall (tag : string) (root : Element) : list Element :=
  List.filter (fun d => String.eqb (tag_of d) tag) (descendants root).

(** [root.findtext(".//" + tag)] *)
Definition findtext (tag : string) (root : Element) : option string :=
  match findall tag root with
  | [] => None
  | e :: _ => Some (default "" (text_of e))
  end.

(** [a or b] on lists *)
Definition list_or {A} (a b : list A) : list A :=
  match a with [] => b | _ => a end.

(** [tag in (...)] *)
Definition tag_in (tag : string) (names : list string) : bool :=
  existsb (String.eqb tag) names.

Definition set_numero_spedizione (v : string) (r : GLSResponse) : GLSResponse :=
  {| numero_spedizione := v; esito := esito r; pdf_base64 := pdf_base64 r;
     error_message := error_message r; r_bda := r_bda r |}.
Definition set_esito (v : string) (r : GLSResponse) : GLSResponse :=
  {| numero_spedizione := numero_spedizione r; esito := v; pdf_base64 := pdf_base64 r;
     error_message := error_message r; r_bda := r_bda r |}.
Definition set_error_message (v : string) (r : GLSResponse) : GLSResponse :=
  {| numero_spedizione := numero_spedizione r; esito := esito r; pdf_base64 := pdf_base64 r;
     error_message := v; r_bda := r_bda r |}.
Definition set_pdf_base64 (v : string) (r : GLSResponse) : GLSResponse :=
  {| numero_spedizione := numero_spedizione r; esito := esito r; pdf_base64 := v;
     error_message := error_message r; r_bda := r_bda r |}.
Definition set_bda (v : string) (r : GLSResponse) : GLSResponse :=
  {| numero_spedizione := numero_spedizione r; esito := esito r; pdf_base64 := pdf_base64 r;
     error_message := error_message r; r_bda := v |}.

(** [GLSResponse(bda=..., esito="KO", error_message=...)] *)
Definition ko_response (bda error_message : string) : GLSResponse :=
  {| numero_spedizione := ""; esito := "KO"; pdf_base64 := "";
     error_message := error_message; r_bda := bda |}.

(** Result of [close_work_day]: [{"success", "esito", "error"}] *)
Record CloseResult := {
  cw_success : bool;
  cw_esito : string;
  cw_error : string
}.

Section Client.
Context (E : Env) (cfg : Config) (credentials : GLSCredentials).

(** [GLSClient.__init__] *)
Definition new_GLSClient : Res unit :=
  if is_valid credentials then Ok tt
  else Raise (GLSClientError "Credenziali GLS incomplete").

(** [GLSClient._get_client]: the session is created on first use *)
Definition _get_client : M unit :=
  s <- get ;;
  if client_open s then ret tt
  else
    emit EvConnect ;;;
    match connect E (trace s) with
    | Some e => raise (GLSClientError ("Impossibile connettersi a GLS: " +:+ e))
    | None => modify (set_client_open true)
    end.

(** One attempt: the SOAP method is looked up and called. *)
Definition call (op : Operation) : M SoapOutcome :=
  s <- get ;;
  emit (EvCall op) ;;;
  ret (soap E (trace s) op).

Definition sleep (seconds : Z) : M unit := emit (EvSleep seconds).

(** [str(last_error)] *)
Definition str_last_error (last_error : option string) : string :=
  match last_error with Some e => e | None => "None" end.

(** The [for attempt in range(GLS_RETRY_ATTEMPTS)] loop of
    [_execute_with_retry] and the raise after it. *)
Fixpoint retry_loop (op : Operation) (attempts : list nat)
    (last_error : option string) : M string :=
  match attempts with
  | [] =>
      raise (GLSClientError
        ("Fallito dopo " +:+ pretty (GLS_RETRY_ATTEMPTS cfg) +:+ " tentativi: "
         +:+ str_last_error last_error))
  | attempt :: rest =>
      r <- call op ;;
      match r with
      | Returned xml => ret xml
      | Faulted e | TransportFailed e =>
          (if (attempt <? GLS_RETRY_ATTEMPTS cfg - 1)%nat
           then sleep (GLS_RETRY_DELAY cfg * 2 ^ Z.of_nat attempt)
           else ret tt) ;;;
          retry_loop op rest (Some e)
      | Unexpected e => raise (GLSClientError ("Errore imprevisto: " +:+ e))
      end
  end.

(** [GLSClient._execute_with_retry] *)
Definition _execute_with_retry (op : Operation) : M string :=
  _get_client ;;;
  retry_loop op (seq 0 (GLS_RETRY_ATTEMPTS cfg)) None.

(** The [for child in parcel_result] body of [_parse_add_parcel_response] *)
Definition parse_child (response : GLSResponse) (child : Element) : GLSResponse :=
  let tag := PyStr.lower (tag_of child) in
  let text := default "" (text_of child) in
  if tag_in tag ["numerospedizione"; "parcelid"; "sped"] then set_numero_spedizione text response
  else if tag_in tag ["esito"; "result"] then set_esito text response
  else if tag_in tag ["errore"; "error"; "errormessage"] then set_error_message text response
  else if tag_in tag ["pdf"; "pdfbase64"; "label"] then set_pdf_base64 text response
  else if String.eqb tag "bda" then set_bda text response
  else response.

(** One round of [for i, parcel_result in enumerate(parcel_results)] *)
Definition parse_entry (parcels : list GLSParcel) (i : nat) (parcel_result : Element)
  : GLSResponse :=
  let response := empty_response in
  let response :=
    match parcels !! i with
    | Some p => set_bda (bda p) response       (* i < len(parcels) *)
    | None => response
    end in
  fold_left parse_child (children_of parcel_result) response.

Fixpoint parse_entries (parcels : list GLSParcel) (i : nat)
    (parcel_results : list Element) (responses : list GLSResponse) : list GLSResponse :=
  match parcel_results with
  | [] => responses
  | parcel_result :: rest =>
      parse_entries parcels (S i) rest (responses ++ [parse_entry parcels i parcel_result])
  end.

(** [GLSClient._parse_add_parcel_response] *)
Definition _parse_add_parcel_response (result : string) (parcels : list GLSParcel)
  : list GLSResponse :=
  match fromstring E result with
  | inr root =>
      let parcel_results := list_or (findall "Parcel" root) (findall "parcel" root) in
      let responses := parse_entries parcels 0 parcel_results [] in
      match responses with
      | [] =>
          let error_text :=
            PyStr.or_ (default "" (text_of root)) (tostring E root) in
          List.map (fun parcel =>
                 ko_response (bda parcel)
                   ("Risposta non parsabile: " +:+ PyStr.take 100 error_text))
              parcels
      | _ => responses
      end
  | inl e =>
      List.map (fun parcel => ko_response (bda parcel) ("XML non valido: " +:+ e))
          parcels
  end.

(** [GLSClient.add_parcels] *)
Definition add_parcels (parcels : list GLSParcel) (generate_pdf : bool)
  : M (list GLSResponse) :=
  if (GLS_MAX_PARCELS_PER_BATCH cfg <? length parcels)%nat
  then raise (GLSClientError
         ("Massimo " +:+ pretty (GLS_MAX_PARCELS_PER_BATCH cfg) +:+ " spedizioni per batch"))
  else
    match parcels with
    | [] => ret []
    | _ =>
        result <- _execute_with_retry (AddParcel credentials parcels generate_pdf) ;;
        ret (_parse_add_parcel_response result parcels)
    end.

(** [GLSClient._parse_close_work_day_response] *)
Definition _parse_close_work_day_response (result : string) : CloseResult :=
  match fromstring E result with
  | inr root =>
      let or_none (a b : option string) :=
        match a with
        | Some x => if PyStr.truthy x then Some x else b
        | None => b
        end in
      let esito := default "" (or_none (findtext "Esito" root) (findtext "esito" root)) in
      let errore := default "" (or_none (findtext "Errore" root) (findtext "errore" root)) in
      {| cw_success := String.eqb (PyStr.upper esito) "OK";
         cw_esito := esito; cw_error := errore |}
  | inl e =>
      {| cw_success := false; cw_esito := "KO";
         cw_error := "Errore parsing risposta: " +:+ e |}
  end.

(** [GLSClient.close_work_day] *)
Definition close_work_day : M CloseResult :=
  result <- _execute_with_retry (CloseWorkDay credentials) ;;
  ret (_parse_close_work_day_response result).

End Client.

(* ===================================================================== *)
(** ** gls_processor.py: GLSProcessor *)
(* ===================================================================== *)

(** [range(start, stop, step)] for a positive step *)
Definition py_range (start stop step : nat) : list nat :=
  List.map (fun i => start + i * step)%nat (seq 0 ((stop - start + step - 1) / step)).

(** [l[a:b]] for [0 <= a] and [0 <= b] *)
Definition slice {A} (a b : nat) (l : list A) : list A :=
  firstn (b - a) (skipn a l).

(** The world and the processor object between two calls of
    [process_file]: the history of effects, the ledger files, the SOAP
    session of the client and the cached tracker. [progress_callback] is
    [None], its default, so [_report_progress] does nothing and the counter
    [processed] of [_upload_batches], which only feeds it, is left out. *)
Record Sys := {
  sys_trace : list Event;
  sys_disk : gmap string FileContent;
  sys_client_open : bool;                  (* self.client._client is not None *)
  sys_tracker : option UploadTracker       (* self._tracker *)
}.

Section Processor.
Context (E : Env) (cfg : Config) (credentials : GLSCredentials).
Context (skip_uploaded : bool).

(** [GLSProcessor._build_note] *)
Definition _build_note (row_data : gmap string string) : string :=
  let parts := [] in
  let progressivo := PyStr.strip (get_str row_data "progressivo") in
  let parts := if PyStr.truthy progressivo then parts ++ [progressivo] else parts in
  let telefono :=
    PyStr.or_ (get_str row_data "telefono_cell") (get_str row_data "telefono_fisso") in
  let parts :=
    if PyStr.truthy telefono then
      let telefono := PyStr.strip (PyStr.replace " " "" (PyStr.replace "+39" "" telefono)) in
      if PyStr.truthy telefono then parts ++ [telefono] else parts
    else parts in
  let indicazioni := PyStr.strip (get_str row_data "indicazioni") in
  let parts := if PyStr.truthy indicazioni then parts ++ [indicazioni] else parts in
  let note := PyStr.join " - " parts in
  truncate 40 note.

(** [GLSProcessor._create_parcel]; [None] when the company name or the
    address is empty *)
Definition _create_parcel (row_data : gmap string string) (colli : Z) (peso : Q)
  : option GLSParcel :=
  if negb (PyStr.truthy (get_str row_data "ragione_sociale"))
     || negb (PyStr.truthy (get_str row_data "indirizzo"))
  then None
  else
    let note := _build_note row_data in
    let cellulare :=
      PyStr.or_ (get_str row_data "telefono_cell") (get_str row_data "telefono_fisso") in
    let bda := get_str row_data "progressivo" in
    Some (new_GLSParcel
            (get_str row_data "ragione_sociale")
            (get_str row_data "indirizzo")
            (get_str row_data "citta")
            (get_str row_data "cap")
            (get_str row_data "provincia")
            colli peso note
            (get_str row_data "email")
            cellulare bda).

(** The body of [for i, response in enumerate(responses)] *)
Definition reconcile (file_path : string)
    (batch_indices : list (Z * gmap string string))
    (i : nat) (response : GLSResponse) : M unit :=
  match batch_indices !! i with
  | None => raise IndexError
  | Some (idx, row_data) =>
      if is_success response then
        modify (set_result (add_success response)) ;;;
        mark_uploaded E file_path idx row_data (numero_spedizione response)
          (Some {[ "esito" := esito response ]})
      else
        modify (set_result
          (add_failure (PyStr.or_ (error_message response) "Errore sconosciuto")
                       (r_bda response)))
  end.

(** One round of [for batch_start in range(...)] in [_upload_batches] *)
Definition upload_batch (parcels : list GLSParcel)
    (row_indices : list (Z * gmap string string))
    (file_path : string) (generate_pdf : bool) (batch_start : nat) : M unit :=
  let total_parcels := length parcels in
  let batch_end := Nat.min (batch_start + GLS_MAX_PARCELS_PER_BATCH cfg) total_parcels in
  let batch := slice batch_start batch_end parcels in
  let batch_indices := slice batch_start batch_end row_indices in
  try_except_GLSClientError
    (responses <- add_parcels E cfg credentials batch generate_pdf ;;
     for_enumerate 0 responses (reconcile file_path batch_indices))
    (fun e =>
       for_each batch_indices (fun '(idx, row_data) =>
         modify (set_result (add_failure e (PyStr.of_int idx))))).

(** [GLSProcessor._upload_batches] *)
Definition _upload_batches (parcels : list GLSParcel)
    (row_indices : list (Z * gmap string string))
    (file_path : string) (generate_pdf : bool) : M unit :=
  if (GLS_MAX_PARCELS_PER_BATCH cfg =? 0)%nat
  then raise (ValueError "range() arg 3 must not be zero")
  else
    for_each (py_range 0 (length parcels) (GLS_MAX_PARCELS_PER_BATCH cfg))
             (upload_batch parcels row_indices file_path generate_pdf).

(** The [for idx, row in df.iterrows()] loop of [process_file]; the rows
    come as [(idx, row_data)], [row_data] being what [_extract_row_data]
    returns. *)
Fixpoint prepare (file_path : string) (colli : Z) (peso : Q)
    (df : list (Z * gmap string string))
    (parcels_to_upload : list GLSParcel)
    (row_indices : list (Z * gmap string string))
  : M (list GLSParcel * list (Z * gmap string string)) :=
  match df with
  | [] => ret (parcels_to_upload, row_indices)
  | (idx, row_data) :: rest =>
      s <- get ;;
      if skip_uploaded && is_uploaded E file_path idx row_data (tracker s) then
        modify (set_result
          (add_skip ("Riga " +:+ PyStr.of_int idx +:+ " già caricata"))) ;;;
        prepare file_path colli peso rest parcels_to_upload row_indices
      else
        match _create_parcel row_data colli peso with
        | Some parcel =>
            prepare file_path colli peso rest
              (parcels_to_upload ++ [parcel]) (row_indices ++ [(idx, row_data)])
        | None =>
            modify (set_result (add_failure "Dati insufficienti" (PyStr.of_int idx))) ;;;
            prepare file_path colli peso rest parcels_to_upload row_indices
        end
  end.

Definition append_error (e : string) (r : GLSUploadResult) : GLSUploadResult :=
  {| total := total r; uploaded := uploaded r; skipped := skipped r;
     failed := failed r; errors := errors r ++ [e]; responses := responses r |}.

Definition set_total (n : nat) (r : GLSUploadResult) : GLSUploadResult :=
  {| total := n; uploaded := uploaded r; skipped := skipped r;
     failed := failed r; errors := errors r; responses := responses r |}.

(** The end of [process_file]: upload in batches, close the work day *)
Definition upload_and_close (file_path : string) (generate_pdf close_workday : bool)
    (parcels_to_upload : list GLSParcel)
    (row_indices : list (Z * gmap string string)) : M unit :=
  (match parcels_to_upload with
   | [] => ret tt
   | _ => _upload_batches parcels_to_upload row_indices file_path generate_pdf
   end) ;;;
  s <- get ;;
  if close_workday && (0 <? uploaded (result s))%nat then
    try_except_GLSClientError
      (close_result <- close_work_day E cfg credentials ;;
       if negb (cw_success close_result)
       then modify (set_result (append_error ("CloseWorkDay: " +:+ cw_error close_result)))
       else ret tt)
      (fun e => modify (set_result (append_error ("CloseWorkDay fallito: " +:+ e))))
  else ret tt.

(** [process_file] once the format is known and the rows are read *)
Definition process_rows (file_path : string) (colli : Z) (peso : Q)
    (generate_pdf close_workday : bool)
    (df : list (Z * gmap string string)) : M unit :=
  modify (set_result (set_total (length df))) ;;;
  prepared <- prepare file_path colli peso df [] [] ;;
  let '(parcels_to_upload, row_indices) := prepared in
  upload_and_close file_path generate_pdf close_workday parcels_to_upload row_indices.

(** [GLSProcessor._get_tracker] *)
Definition _get_tracker (file_path : string) (y : Sys) : UploadTracker :=
  let folder := path_parent E file_path in
  match sys_tracker y with
  | Some t => if String.eqb (base_path t) folder then t
              else new_UploadTracker folder (sys_disk y)
  | None => new_UploadTracker folder (sys_disk y)
  end.

(** [GLSProcessor.process_file] on a file of a known format whose rows
    are [df] *)
Definition process_file (file_path : string) (colli : Z) (peso : Q)
    (generate_pdf close_workday : bool)
    (df : list (Z * gmap string string)) (y : Sys) : Res GLSUploadResult * Sys :=
  let s0 := {| trace := sys_trace y; disk := sys_disk y;
               client_open := sys_client_open y;
               tracker := _get_tracker file_path y;
               result := empty_result |} in
  let '(r, s1) := process_rows file_path colli peso generate_pdf close_workday df s0 in
  (match r with Ok _ => Ok (result s1) | Raise e => Raise e end,
   {| sys_trace := trace s1; sys_disk := disk s1;
      sys_client_open := client_open s1;
      sys_tracker := Some (tracker s1) |}).

End Processor.


(* ===================================================================== *)
(** ** upload_tracker.py: queries *)
(* ===================================================================== *)

(** [l[a:]] for a Python list and any integer [a] *)
Definition slice_from {A} (a : Z) (l : list A) : list A :=
  let n := Z.of_nat (length l) in
  let start := if a <? 0 then Z.max (n + a) 0 else Z.min a n in
  skipn (Z.to_nat start) l.

(** Result of [get_stats]: [{"total_uploads", "files", "history_entries"}] *)
Record Stats := {
  total_uploads : nat;
  files : gmap string nat;
  history_entries : nat
}.

Section TrackerQueries.
Context (E : Env).

(** [UploadTracker.get_upload_info] *)
Definition get_upload_info (file_path : string) (row_index : Z)
    (row_data : gmap string string) (t : UploadTracker) : option UploadRecord :=
  let key := _generate_row_key E file_path row_index row_data in
  uploads (_data t) !! key.

(** [key.startswith(f"{file_name}:")] for the keys of a file *)
Definition key_of_file (file_path : string) (key : string) : bool :=
  PyStr.starts_with (path_stem E file_path +:+ ":") key.

(** [UploadTracker.get_file_uploads]; a [gmap] does not keep the order of
    insertion of a [dict], so the list is the one of the source up to the
    order of its elements. *)
Definition get_file_uploads (file_path : string) (t : UploadTracker) : list UploadRecord :=
  (map_to_list
     (filter (fun kv : string * UploadRecord => Is_true (key_of_file file_path kv.1))
             (uploads (_data t)))).*2.

(** [UploadTracker.count_uploaded] *)
Definition count_uploaded (file_path : string) (t : UploadTracker) : nat :=
  length (get_file_uploads file_path t).

(** [UploadTracker.get_upload_history]: [list(reversed(history[-limit:]))] *)
Definition get_upload_history (limit : Z) (t : UploadTracker) : list HistoryEntry :=
  rev (slice_from (- limit) (history (_data t))).

(** [UploadTracker.get_stats] *)
Definition get_stats (t : UploadTracker) : Stats :=
  {| total_uploads := size (uploads (_data t));
     files := map_fold (fun _ record files =>
                          <[u_file record := (default 0 (files !! u_file record) + 1)%nat]> files)
                       ∅ (uploads (_data t));
     history_entries := length (history (_data t)) |}.

End TrackerQueries.

(* ===================================================================== *)
(** ** gls_models.py, gls_client.py: the request document and the other
       remote operations *)
(* ===================================================================== *)

Section ClientMore.
Context (E : Env) (cfg : Config) (credentials : GLSCredentials).

(** [f"{x:.2f}"] on a float is the library's; the amounts are only printed,
    so the printer is a parameter. *)
Context (format_2f : Q -> string).

(** [GLSParcel.to_dict], with its keys in their order *)
Definition to_dict (p : GLSParcel) : list (string * string) :=
  [("RagioneSociale", ragione_sociale p);
   ("Indirizzo", indirizzo p);
   ("Localita", localita p);
   ("Zipcode", zipcode p);
   ("Provincia", provincia p);
   ("Colli", PyStr.of_int (colli p));
   ("PesoReale", format_2f (peso p));
   ("Note", note p);
   ("Email", email p);
   ("Cellulare", cellulare p);
   ("BDA", bda p);
   ("Contrassegno",
      if negb (Qle_bool (contrassegno p) 0) then format_2f (contrassegno p) else "");
   ("ImportoAssicurato",
      if negb (Qle_bool (importo_assicurato p) 0)
      then format_2f (importo_assicurato p) else "")].

(** The [Parcel] element that [_build_parcels_xml] makes for one parcel:
    one child per field that is not empty. *)
Definition parcel_element (p : GLSParcel) : Element :=
  Elem "Parcel" None
    (List.map (fun kv : string * string => Elem kv.1 (Some kv.2) [])
       (List.filter (fun kv : string * string => PyStr.truthy kv.2) (to_dict p))).

(** The tree of [_build_parcels_xml] *)
Definition parcels_tree (parcels : list GLSParcel) : Element :=
  Elem "Info" None (List.map parcel_element parcels).

(** [GLSClient._build_parcels_xml] *)
Definition _build_parcels_xml (parcels : list GLSParcel) : string :=
  tostring E (parcels_tree parcels).


(** The [for child in sped] loop of [_parse_list_shipments_response] *)
Definition shipment_of (sped : Element) : gmap string string :=
  fold_left (fun shipment child => <[tag_of child := default "" (text_of child)]> shipment)
            (children_of sped) ∅.

(** [GLSClient._parse_list_shipments_response] *)
Definition _parse_list_shipments_response (result : string) : list (gmap string string) :=
  match fromstring E result with
  | inr root =>
      List.map shipment_of
        (list_or (findall "Spedizione" root) (findall "spedizione" root))
  | inl _ => []
  end.

(** [GLSClient.list_shipments] *)
Definition list_shipments (date_from date_to : string) : M (list (gmap string string)) :=
  result <- _execute_with_retry E cfg (ListSped credentials date_from date_to) ;;
  ret (_parse_list_shipments_response result).

(** [GLSClient.delete_shipment] *)
Definition delete_shipment (shipment_id : string) : M CloseResult :=
  result <- _execute_with_retry E cfg (DeleteSped credentials shipment_id) ;;
  ret (match fromstring E result with
       | inr root =>
           let or_none (a b : option string) :=
             match a with
             | Some x => if PyStr.truthy x then Some x else b
             | None => b
             end in
           let esito := default "" (or_none (findtext "Esito" root) (findtext "esito" root)) in
           let errore :=
             default "" (or_none (findtext "Errore" root) (findtext "errore" root)) in
           {| cw_success := String.eqb (PyStr.upper esito) "OK";
              cw_esito := esito; cw_error := errore |}
       | inl e =>
           {| cw_success := false; cw_esito := "KO"; cw_error := "Errore: " +:+ e |}
       end).

(** [GLSClient.test_connection] *)
Definition test_connection : M bool :=
  try_except_GLSClientError
    (list_shipments "" "" ;;; ret true)
    (fun _ => ret false).

(** [GLSProcessor.test_credentials] *)
Definition test_credentials : M (bool * string) :=
  try_except_GLSClientError
    (ok <- test_connection ;;
     if ok then ret (true, "Connessione riuscita")
     else ret (false, "Connessione fallita"))
    (fun e => ret (false, e)).

End ClientMore.

(* ===================================================================== *)
(** ** gls_processor.py: counting the rows to upload *)
(* ===================================================================== *)

Section ProcessorMore.
Context (E : Env).



End ProcessorMore.
(* ===================================================================== *)
(** * The properties as the specification states them *)
(* ===================================================================== *)

(** The success criterion as the specification words it: the flag is the
    string OK and the shipment id is not empty. *)
Definition success_as_specified (r : GLSResponse) : Prop :=
  esito r = "OK" /\ numero_spedizione r <> "".



(** *** Vocabulary for traces *)

(** What an operation of the client leaves alone. *)
Definition same_ledger (s s' : St) : Prop :=
  disk s' = disk s /\ tracker s' = tracker s /\ result s' = result s.


Definition is_call (e : Event) : bool :=
  match e with EvCall _ => true | _ => false end.

(** Number of SOAP attempts in a run of events. *)
Definition call_count (evs : list Event) : nat := length (List.filter is_call evs).

Definition is_fault (o : SoapOutcome) : bool :=
  match o with Faulted _ | TransportFailed _ => true | _ => false end.

Definition fault_text (o : SoapOutcome) : string :=
  match o with Faulted e | TransportFailed e => e | _ => "" end.

(** The events of [c] attempts of [op] in a row, the first one being
    attempt number [k]: each attempt but the last is followed by the sleep
    of [GLS_RETRY_DELAY * 2^k] seconds that precedes the retry. *)
Fixpoint attempt_events (cfg : Config) (op : Operation) (k c : nat) : list Event :=
  match c with
  | O => []
  | S c' =>
      EvCall op ::
      match c' with
      | O => []
      | S _ => EvSleep (GLS_RETRY_DELAY cfg * 2 ^ Z.of_nat k) :: attempt_events cfg op (S k) c'
      end
  end.

(** The batches that the [AddParcel] attempts in a run of events carry. *)
Definition submitted (evs : list Event) : list (list GLSParcel) :=
  omap (fun e => match e with EvCall (AddParcel _ b _) => Some b | _ => None end) evs.

(** The values that [batch] takes over the rounds of [_upload_batches]. *)
Definition batches (cfg : Config) (parcels : list GLSParcel) : list (list GLSParcel) :=
  List.map
    (fun batch_start =>
       slice batch_start
             (Nat.min (batch_start + GLS_MAX_PARCELS_PER_BATCH cfg) (length parcels))
             parcels)
    (py_range 0 (length parcels) (GLS_MAX_PARCELS_PER_BATCH cfg)).

(** What a step of a run may do: it extends the history, every batch it
    sends satisfies [B], it leaves the ledger records outside the keys [K]
    as they are, and it neither moves the tracker nor touches the total,
    the skip count or the errors already reported. *)
Definition run_step (K : string -> Prop) (B : list GLSParcel -> Prop) (s s' : St) : Prop :=
  (exists evs, trace s' = trace s ++ evs /\ Forall B (submitted evs))
  /\ (forall k, ~ K k ->
        uploads (_data (tracker s')) !! k = uploads (_data (tracker s)) !! k)
  /\ base_path (tracker s') = base_path (tracker s)
  /\ total (result s') = total (result s)
  /\ skipped (result s') = skipped (result s)
  /\ (exists more, errors (result s') = errors (result s) ++ more).

(** A computation all of whose runs are related by [R]. *)
Definition steps {A} (R : St -> St -> Prop) (c : M A) : Prop :=
  forall s, R s (snd (c s)).

(** *** Sample inputs *)

Definition sample_credentials : GLSCredentials :=
  {| sede := "XX"; codice_cliente := "1234"; password := "secret";
     codice_contratto := "77" |}.

(** An environment with a fixed hash, POSIX-like names for one file, a
    fixed clock, and the given service, parser and disk behaviour. *)
Definition sample_env (service : list Event -> Operation -> SoapOutcome)
    (parse : string -> string + Element) (write : list Event -> IOOutcome) : Env :=
  {| md5_hexdigest := fun _ => "d41d8cd98f00b204e9800998ecf8427e";
     path_stem := fun _ => "ordini_VALIDATO";
     path_name := fun _ => "ordini_VALIDATO.xlsx";
     path_parent := fun _ => "/data";
     fromstring := parse;
     tostring := fun e => "<" +:+ tag_of e +:+ "/>";
     connect := fun _ => None;
     soap := service;
     now_iso := fun _ => "2024-05-06T07:08:09";
     io := write |}.

(** A service that times out on every call. *)
Definition env_timeout : Env :=
  sample_env (fun _ _ => TransportFailed "timeout") (fun _ => inl "no document")
             (fun _ => IoOk).

Definition sample_row (name address : string) : gmap string string :=
  {[ "ragione_sociale" := name; "indirizzo" := address; "cap" := "00100";
     "citta" := "Roma"; "provincia" := "rm"; "progressivo" := "" ]}.

(** The state of a run that starts with an empty ledger in [/data]. *)
Definition fresh_state : St :=
  {| trace := []; disk := ∅; client_open := false;
     tracker := {| base_path := "/data"; _data := empty_data |};
     result := empty_result |}.

(** *** Vocabulary for response parsing *)





(** *** Vocabulary for the ledger *)

(** The ledger that [mark_uploaded] builds in state [s]: the record is set
    under the key of the row and an audit entry is appended. *)
Definition marked_data (E : Env) (file_path : string) (row_index : Z)
    (row_data : gmap string string) (shipment_id : string)
    (response_data : option (gmap string string)) (s : St) : Data :=
  let key := _generate_row_key E file_path row_index row_data in
  {| uploads :=
       <[key := {| u_file := path_name E file_path;
                   u_row := row_index;
                   u_shipment_id := shipment_id;
                   u_ragione_sociale := get_str row_data "ragione_sociale";
                   u_uploaded_at := now_iso E (trace s);
                   u_response :=
                     match response_data with
                     | Some d => if bool_decide (d = ∅) then None else Some d
                     | None => None
                     end |}]> (uploads (_data (tracker s)));
     history := history (_data (tracker s)) ++
       [{| h_key := key; h_action := "upload";
           h_timestamp := now_iso E (trace s ++ [EvNow]);
           h_shipment_id := shipment_id |}] |}.





(** *** Vocabulary for the reconciliation *)

(** Rows counted by a result as uploaded or failed. *)
Definition counted (r : GLSUploadResult) : nat := (uploaded r + failed r)%nat.

(** A response entry that reports success with the given shipment id. *)
Definition ok_entry (shipment_id : string) : Element :=
  Elem "Parcel" None
    [Elem "NumeroSpedizione" (Some shipment_id) []; Elem "Esito" (Some "OK") []].


(** The end-to-end scenario: the first call is answered with two successful
    entries, every later call times out; the batch limit is 2. *)
Definition env_scenario : Env :=
  sample_env (fun t _ => if (call_count t =? 0)%nat
                         then Returned "<Info>...</Info>"
                         else TransportFailed "timed out")
             (fun _ => inr (Elem "Info" None [ok_entry "M1"; ok_entry "M2"]))
             (fun _ => IoOk).

Definition config_max_2 : Config :=
  {| GLS_MAX_PARCELS_PER_BATCH := 2; GLS_RETRY_ATTEMPTS := 3; GLS_RETRY_DELAY := 2 |}.

Definition three_rows : list (Z * gmap string string) :=
  [(0, sample_row "Uno" "Via A 1"); (1, sample_row "Due" "Via B 2");
   (2, sample_row "Tre" "Via C 3")].

(** A process that has just started: no session, no tracker loaded. *)
Definition new_process (files : gmap string FileContent) (history : list Event) : Sys :=
  {| sys_trace := history; sys_disk := files; sys_client_open := false;
     sys_tracker := None |}.

(** *** Vocabulary for idempotency *)

(** The row is in the ledger of tracker [t]. *)
Definition in_ledger (E : Env) (file_path : string) (t : UploadTracker)
    (row : Z * gmap string string) : bool :=
  is_uploaded E file_path row.1 row.2 t.






(** [P] holds after [c] whenever it held before and [c] returned or raised
    a [GLSClientError]. *)
Definition preserves {A} (P : St -> Prop) (c : M A) : Prop :=
  forall s, P s ->
    match fst (c s) with
    | Ok _ | Raise (GLSClientError _) => P (snd (c s))
    | Raise _ => True
    end.

(** *** Vocabulary for the further properties *)

(** The sum of the counts of a map from names to counts. *)
Definition sum_counts (m : gmap string nat) : nat :=
  map_fold (fun _ n acc => (n + acc)%nat) 0%nat m.

(** Whether the attempts of [op] under the retry policy, started in state
    [s], end with an answer of the service. *)
Definition answered (E : Env) (cfg : Config) (op : Operation) (s : St) : bool :=
  match fst (_execute_with_retry E cfg op s) with Ok _ => true | Raise _ => false end.

(** Every exception that [c] raises satisfies [Q]. *)
Definition raises_only {A} (Q : Exc -> Prop) (c : M A) : Prop :=
  forall s, match fst (c s) with Raise e => Q e | Ok _ => True end.

Definition is_client_error (e : Exc) : Prop :=
  match e with GLSClientError _ => True | _ => False end.

(** The row is skipped by a run with the given [skip_uploaded] flag. *)
Definition skips (E : Env) (skip_uploaded : bool) (file_path : string)
    (t : UploadTracker) (row : Z * gmap string string) : bool :=
  skip_uploaded && in_ledger E file_path t row.

(** The rows that a run goes on with, those of them from which a parcel
    can be built, and the parcels. *)
Definition to_send (E : Env) (skip_uploaded : bool) (file_path : string)
    (t : UploadTracker) (df : list (Z * gmap string string))
  : list (Z * gmap string string) :=
  List.filter (fun row => negb (skips E skip_uploaded file_path t row)) df.

Definition sendable (colli : Z) (peso : Q) (row : Z * gmap string string) : bool :=
  bool_decide (is_Some (_create_parcel row.2 colli peso)).

Definition sent_rows (E : Env) (skip_uploaded : bool) (file_path : string)
    (t : UploadTracker) (colli : Z) (peso : Q) (df : list (Z * gmap string string))
  : list (Z * gmap string string) :=
  List.filter (sendable colli peso) (to_send E skip_uploaded file_path t df).

Definition sent_parcels (E : Env) (skip_uploaded : bool) (file_path : string)
    (t : UploadTracker) (colli : Z) (peso : Q) (df : list (Z * gmap string string))
  : list GLSParcel :=
  omap (fun row => _create_parcel row.2 colli peso)
       (to_send E skip_uploaded file_path t df).

(** The line that reports a row without company name or address. *)
Definition insufficient_line (row : Z * gmap string string) : string :=
  "ERRORE " +:+ PyStr.of_int row.1 +:+ ": Dati insufficienti".

(** What ends a run of [process_file] with an exception: a ledger write
    that fails, a response with more entries than parcels sent, a batch
    limit of zero; never a [GLSClientError]. *)
Definition abort_cause (E : Env) (cfg : Config) (e : Exc) : Prop :=
  match e with
  | GLSClientError _ => False
  | RuntimeError _ | ProcessKilled => exists t, io E t <> IoOk
  | IndexError =>
      exists xml parcels,
        (length parcels < length (_parse_add_parcel_response E xml parcels))%nat
  | ValueError _ => GLS_MAX_PARCELS_PER_BATCH cfg = 0%nat
  end.

(** The responses kept in a result are the successful ones, one per
    uploaded row. *)
Definition responses_are_uploads (s : St) : Prop :=
  length (responses (result s)) = uploaded (result s)
  /\ Forall (fun r => is_success r = true) (responses (result s)).

(** A step that keeps the counts of uploaded and failed rows and the
    responses. *)
Definition same_counts (s s' : St) : Prop :=
  uploaded (result s') = uploaded (result s)
  /\ failed (result s') = failed (result s)
  /\ skipped (result s') = skipped (result s)
  /\ total (result s') = total (result s)
  /\ responses (result s') = responses (result s).

(** The tags of the fields of a [Parcel] element of a request. *)
Definition field_tags (e : Element) : list string :=
  List.map tag_of (children_of e).

(** A field of a request: a leaf with a text that is not empty. *)
Definition filled_leaf (c : Element) : Prop :=
  exists t, text_of c = Some t /\ t <> "" /\ children_of c = [].

(** The texts of the children of [e] whose tag is exactly [k], in document
    order. *)
Definition field_texts (k : string) (e : Element) : list string :=
  List.map (fun c => default "" (text_of c))
    (List.filter (fun c => String.eqb (tag_of c) k) (children_of e)).

(** The outcome that [close_work_day] and [delete_shipment] report for an
    answer [xml] of the service. *)
Definition reported (E : Env) (xml : string) (r : CloseResult) : Prop :=
  match fromstring E xml with
  | inl _ => cw_success r = false /\ cw_esito r = "KO"
  | inr _ => cw_success r = String.eqb (PyStr.upper (cw_esito r)) "OK"
  end.

(** A step that extends the history by events that satisfy [P]. *)
Definition emits (P : Event -> Prop) (s s' : St) : Prop :=
  exists evs, trace s' = trace s ++ evs /\ Forall P evs.

(** The event is an attempt of [CloseWorkDay]. *)
Definition is_close (e : Event) : bool :=
  match e with EvCall (CloseWorkDay _) => true | _ => false end.

Definition not_close (e : Event) : Prop := is_close e = false.
(* ===================================================================== *)
(** * Properties *)
(* ===================================================================== *)

(** ** Strings *)

Module PyStrFacts.
Import PyStr.

Lemma len_append (a b : string) : len (a +:+ b) = (len a + len b)%nat.
Proof. induction a as [|c a IH]; simpl; [reflexivity | unfold len in *; simpl; lia]. Qed.

Lemma len_take (n : nat) (s : string) : len (take n s) = Nat.min n (len s).
Proof.
  revert s; induction n as [|n IH]; intros [|c s]; simpl; try reflexivity.
  unfold len in *; simpl; rewrite IH; reflexivity.
Qed.

Lemma take_all (n : nat) (s : string) : (len s <= n)%nat -> take n s = s.
Proof.
  revert s; induction n as [|n IH]; intros [|c s] H; simpl; try reflexivity.
  - unfold len in H; simpl in H; lia.
  - f_equal. apply IH. unfold len in *; simpl in H; lia.
Qed.

Lemma len_zeros (n : nat) : len (zeros n) = n.
Proof. induction n; simpl; unfold len in *; simpl; congruence. Qed.


Lemma len_zfill (w : nat) (s : string) : len (zfill w s) = Nat.max w (len s).
Proof.
  unfold zfill. destruct (Nat.leb_spec w (len s)) as [Hle|Hlt]; [lia|].
  destruct s as [|c rest].
  - rewrite len_zeros. unfold len; simpl; lia.
  - destruct (Ascii.eqb c "+" || Ascii.eqb c "-")%bool.
    + change (len (String c (zeros (w - len (String c rest)) +:+ rest)))
        with (S (len (zeros (w - len (String c rest)) +:+ rest))).
      rewrite len_append, len_zeros. unfold len in *; simpl in *; lia.
    + rewrite len_append, len_zeros. lia.
Qed.







Lemma upper_char_O (c : ascii) :
  upper_char c = "O"%char -> c = "O"%char \/ c = "o"%char.
Proof.
  destruct c as [[] [] [] [] [] [] [] []]; vm_compute; intros H;
    solve [discriminate H | left; reflexivity | right; reflexivity].
Qed.

Lemma upper_char_K (c : ascii) :
  upper_char c = "K"%char -> c = "K"%char \/ c = "k"%char.
Proof.
  destruct c as [[] [] [] [] [] [] [] []]; vm_compute; intros H;
    solve [discriminate H | left; reflexivity | right; reflexivity].
Qed.

(** The strings that upper() sends to "OK". *)
Lemma upper_OK (s : string) :
  upper s = "OK" <-> s = "OK" \/ s = "Ok" \/ s = "oK" \/ s = "ok".
Proof.
  split.
  - destruct s as [|a [|b [|c s]]]; simpl; try discriminate.
    intros H. injection H as Ha Hb.
    destruct (upper_char_O a Ha) as [-> | ->], (upper_char_K b Hb) as [-> | ->]; tauto.
  - intros [-> | [-> | [-> | ->]]]; reflexivity.
Qed.

Lemma truthy_iff (s : string) : truthy s = true <-> s <> "".
Proof. destruct s; simpl; split; congruence. Qed.

Lemma truncate_take (n : nat) (s : string) : truncate n s = take n s.
Proof.
  unfold truncate. destruct (Nat.ltb_spec n (len s)); [reflexivity|].
  symmetry. apply take_all. assumption.
Qed.

Lemma len_truncate (n : nat) (s : string) : (len (truncate n s) <= n)%nat.
Proof. rewrite truncate_take, len_take. lia. Qed.

End PyStrFacts.

(** ** Parcels and responses (gls_models.py) *)

(** C5, as stated, fails: a lower-case flag with a shipment id is a
    success for the code. *)
Lemma is_success_lowercase_flag :
  let r := {| numero_spedizione := "M1234567"; esito := "ok"; pdf_base64 := "";
              error_message := ""; r_bda := "" |} in
  is_success r = true /\ ~ success_as_specified r.
Proof.
  split; [reflexivity|]. intros [H _]. discriminate H.
Qed.

(** C5 (amended): [is_success] holds exactly when the outcome flag is OK
    up to letter case (OK, Ok, oK or ok) and the shipment id is not empty;
    every other combination is a failure. *)
Theorem is_success_iff (r : GLSResponse) :
  is_success r = true <->
  (esito r = "OK" \/ esito r = "Ok" \/ esito r = "oK" \/ esito r = "ok")
  /\ numero_spedizione r <> "".
Proof.
  unfold is_success. rewrite andb_true_iff, String.eqb_eq.
  rewrite PyStrFacts.upper_OK, PyStrFacts.truthy_iff. reflexivity.
Qed.

(** C8: the postal code of a parcel on the two inputs of the
    specification, and on a short code with a decimal fragment, which
    [__post_init__] keeps: the first five characters are "100.0". The
    sibling normalisations ([processor.py], [correggi_cap]) cut at the
    point before padding. *)
Theorem zipcode_normalization_cases :
  let cap z := zipcode (new_GLSParcel "Rossi" "Via Roma 1" "Roma" z "RM" 1 (3 # 1) "" "" "" "") in
  cap "00100.0" = "00100" /\ cap "100" = "00100" /\ cap " 100 " = "00100"
  /\ cap "100.0" = "100.0".
Proof. repeat split; reflexivity. Qed.



(** ** The monad *)

Ltac msimpl :=
  unfold emit, bind, ret, raise, get, modify, set_trace, set_disk, set_client_open,
    set_data, set_result in *; cbn [fst snd trace disk client_open tracker result
    base_path _data] in *.

Lemma same_ledger_refl (s : St) : same_ledger s s.
Proof. repeat split. Qed.

Lemma same_ledger_trans (s1 s2 s3 : St) :
  same_ledger s1 s2 -> same_ledger s2 s3 -> same_ledger s1 s3.
Proof. unfold same_ledger. intros (-> & -> & ->) (-> & -> & ->). repeat split. Qed.

(** ** The retry loop (gls_client.py) *)

Section RetryFacts.
Context (E : Env) (cfg : Config) (op : Operation).

Lemma attempt_events_calls (k c : nat) : call_count (attempt_events cfg op k c) = c.
Proof.
  revert k; induction c as [|c IH]; intros k; [reflexivity|].
  destruct c as [|c]; [reflexivity|].
  specialize (IH (S k)). unfold call_count in *.
  change (attempt_events cfg op k (S (S c)))
    with (EvCall op :: EvSleep (GLS_RETRY_DELAY cfg * 2 ^ Z.of_nat k)
            :: attempt_events cfg op (S k) (S c)).
  cbn [List.filter is_call length]. rewrite IH. reflexivity.
Qed.

Lemma retry_loop_spec (n k : nat) (last : option string) (s : St) :
  (k + n = GLS_RETRY_ATTEMPTS cfg)%nat ->
  exists c r s',
    retry_loop E cfg op (seq k n) last s = (r, s')
    /\ (c <= n)%nat /\ ((0 < n)%nat -> (0 < c)%nat)
    /\ trace s' = trace s ++ attempt_events cfg op k c
    /\ same_ledger s s' /\ client_open s' = client_open s
    /\ ((forall t, is_fault (soap E t op) = true) ->
        c = n /\
        match n with
        | O => r = Raise (GLSClientError
                 ("Fallito dopo " +:+ pretty (GLS_RETRY_ATTEMPTS cfg) +:+ " tentativi: "
                  +:+ str_last_error last))
        | S _ => exists t_last,
            trace s' = t_last ++ [EvCall op]
            /\ r = Raise (GLSClientError
                 ("Fallito dopo " +:+ pretty (GLS_RETRY_ATTEMPTS cfg) +:+ " tentativi: "
                  +:+ fault_text (soap E t_last op)))
        end).
Proof.
  revert k last s. induction n as [|n IH]; intros k last s Hk.
  - exists 0%nat. eexists _, _. split; [reflexivity|].
    cbn [attempt_events]. rewrite app_nil_r.
    repeat split; auto using same_ledger_refl; lia.
  - cbn [seq retry_loop]. unfold call at 1. msimpl.
    set (s1 := {| trace := trace s ++ [EvCall op]; disk := disk s;
                  client_open := client_open s; tracker := tracker s;
                  result := result s |}).
    assert (Hfault : forall e, soap E (trace s) op = Faulted e \/
                               soap E (trace s) op = TransportFailed e ->
      exists c r s',
        ((if (k <? GLS_RETRY_ATTEMPTS cfg - 1)%nat
          then sleep (GLS_RETRY_DELAY cfg * 2 ^ Z.of_nat k) else ret tt) ;;;
         retry_loop E cfg op (seq (S k) n) (Some e)) s1 = (r, s')
        /\ (c <= S n)%nat /\ ((0 < S n)%nat -> (0 < c)%nat)
        /\ trace s' = trace s ++ attempt_events cfg op k c
        /\ same_ledger s s' /\ client_open s' = client_open s
        /\ ((forall t, is_fault (soap E t op) = true) ->
            c = S n /\ exists t_last,
              trace s' = t_last ++ [EvCall op]
              /\ r = Raise (GLSClientError
                   ("Fallito dopo " +:+ pretty (GLS_RETRY_ATTEMPTS cfg) +:+ " tentativi: "
                    +:+ fault_text (soap E t_last op))))).
    { intros e He.
      destruct n as [|n].
      - (* the final attempt: no sleep, the loop ends *)
        replace (k <? GLS_RETRY_ATTEMPTS cfg - 1)%nat with false
          by (symmetry; apply Nat.ltb_ge; lia).
        exists 1%nat. eexists _, _. split; [reflexivity|]. cbn [attempt_events].
        repeat split; auto; try lia.
        exists (trace s). split; [reflexivity|].
        destruct He as [-> | ->]; reflexivity.
      - replace (k <? GLS_RETRY_ATTEMPTS cfg - 1)%nat with true
          by (symmetry; apply Nat.ltb_lt; lia).
        unfold sleep. msimpl.
        set (s2 := {| trace := (trace s ++ [EvCall op])
                               ++ [EvSleep (GLS_RETRY_DELAY cfg * 2 ^ Z.of_nat k)];
                      disk := disk s; client_open := client_open s;
                      tracker := tracker s; result := result s |}).
        destruct (IH (S k) (Some e) s2 ltac:(lia))
          as (c & r & s' & Hrun & Hc & Hpos & Htr & Hsame & Hopen & Hall).
        exists (S c), r, s'. split; [exact Hrun|].
        assert (0 < c)%nat by (apply Hpos; lia).
        destruct c as [|c]; [lia|].
        repeat split; try lia.
        + rewrite Htr. subst s2. cbn [trace attempt_events].
          rewrite <- !app_assoc. reflexivity.
        + apply Hsame.
        + apply Hsame.
        + apply Hsame.
        + exact Hopen.
        + destruct (Hall H0) as [Hcn _]. lia.
        + destruct (Hall H0) as [_ Hlast]. exact Hlast. }
    destruct (soap E (trace s) op) as [xml | e | e | e] eqn:Ho.
    + exists 1%nat. eexists _, _. split; [reflexivity|]. cbn [attempt_events].
      repeat split; auto; try lia;
        specialize (H (trace s)); rewrite Ho in H; discriminate H.
    + apply (Hfault e). left; reflexivity.
    + apply (Hfault e). right; reflexivity.
    + exists 1%nat. eexists _, _. split; [reflexivity|]. cbn [attempt_events].
      repeat split; auto; try lia;
        specialize (H (trace s)); rewrite Ho in H; discriminate H.
Qed.

(** [_get_client] opens the session at most once and touches nothing else. *)
Lemma _get_client_spec (s : St) :
  exists r s',
    _get_client E s = (r, s') /\ same_ledger s s'
    /\ trace s' = trace s ++ (if client_open s then [] else [EvConnect])
    /\ match r with
       | Ok _ => client_open s = true \/ connect E (trace s) = None
       | Raise e => client_open s = false /\ client_open s' = false /\
           exists m, connect E (trace s) = Some m
             /\ e = GLSClientError ("Impossibile connettersi a GLS: " +:+ m)
       end.
Proof.
  unfold _get_client. msimpl.
  destruct (client_open s) eqn:Hopen.
  - eexists _, _. split; [reflexivity|]. rewrite app_nil_r.
    repeat split; auto.
  - destruct (connect E (trace s)) as [m|] eqn:Hc.
    + eexists _, _. split; [reflexivity|]. msimpl.
      repeat split; auto. exists m. split; reflexivity.
    + eexists _, _. split; [reflexivity|]. msimpl.
      repeat split; auto.
Qed.

End RetryFacts.

(** ** Steps of a run *)

Section Steps.
Context (R : St -> St -> Prop).
Context (R_refl : forall s, R s s).
Context (R_trans : forall s1 s2 s3, R s1 s2 -> R s2 s3 -> R s1 s3).

Lemma steps_ret {A} (a : A) : steps R (ret a).
Proof. intros s. apply R_refl. Qed.

Lemma steps_raise {A} (e : Exc) : steps R (@raise A e).
Proof. intros s. apply R_refl. Qed.

Lemma steps_bind {A B} (c : M A) (k : A -> M B) :
  steps R c -> (forall a, steps R (k a)) -> steps R (bind c k).
Proof.
  intros Hc Hk s. unfold bind. specialize (Hc s).
  destruct (c s) as [[a|e] s1]; cbn [snd] in *; [|exact Hc].
  eapply R_trans; [exact Hc | apply Hk].
Qed.

Lemma steps_get : steps R get.
Proof. intros s. apply R_refl. Qed.

Lemma steps_get_bind {B} (k : St -> M B) :
  (forall s, R s (snd (k s s))) -> steps R (bind get k).
Proof. intros Hk s. unfold bind, get. apply Hk. Qed.

Lemma steps_try {A} (body : M A) (handler : string -> M A) :
  steps R body -> (forall m, steps R (handler m)) ->
  steps R (try_except_GLSClientError body handler).
Proof.
  intros Hb Hh s. unfold try_except_GLSClientError. specialize (Hb s).
  destruct (body s) as [[a|e] s1]; cbn [snd] in *; [exact Hb|].
  destruct e; try exact Hb.
  eapply R_trans; [exact Hb | apply Hh].
Qed.

Lemma steps_for_each {A} (xs : list A) (body : A -> M unit) :
  (forall x, x ∈ xs -> steps R (body x)) -> steps R (for_each xs body).
Proof.
  induction xs as [|x xs IH]; intros Hb; cbn [for_each].
  - apply steps_ret.
  - apply steps_bind.
    + apply Hb. left.
    + intros _. apply IH. intros y Hy. apply Hb. right. exact Hy.
Qed.

Lemma steps_for_enumerate {A} (i : nat) (xs : list A) (body : nat -> A -> M unit) :
  (forall j x, steps R (body j x)) -> steps R (for_enumerate i xs body).
Proof.
  intros Hb. revert i. induction xs as [|x xs IH]; intros i; cbn [for_enumerate].
  - apply steps_ret.
  - apply steps_bind; [apply Hb | intros _; apply IH].
Qed.

End Steps.

Lemma submitted_app (a b : list Event) : submitted (a ++ b) = submitted a ++ submitted b.
Proof. unfold submitted. apply omap_app. Qed.

Section RunStep.
Context (K : string -> Prop) (B : list GLSParcel -> Prop).

Lemma run_step_refl (s : St) : run_step K B s s.
Proof.
  unfold run_step. repeat split; auto.
  - exists []. rewrite app_nil_r. split; [reflexivity | constructor].
  - exists []. rewrite app_nil_r. reflexivity.
Qed.

Lemma run_step_trans (s1 s2 s3 : St) :
  run_step K B s1 s2 -> run_step K B s2 s3 -> run_step K B s1 s3.
Proof.
  intros ((e1 & Ht1 & Hb1) & Hu1 & Hp1 & Htot1 & Hsk1 & (m1 & He1))
         ((e2 & Ht2 & Hb2) & Hu2 & Hp2 & Htot2 & Hsk2 & (m2 & He2)).
  unfold run_step. repeat split.
  - exists (e1 ++ e2). rewrite Ht2, Ht1, app_assoc. split; [reflexivity|].
    rewrite submitted_app. apply Forall_app. split; assumption.
  - intros k Hk. rewrite Hu2, Hu1 by assumption. reflexivity.
  - congruence.
  - congruence.
  - congruence.
  - exists (m1 ++ m2). rewrite He2, He1, app_assoc. reflexivity.
Qed.

(** A step that only appends events, none of them an [AddParcel] call. *)
Lemma run_step_emit (e : Event) :
  submitted [e] = [] -> steps (run_step K B) (emit e).
Proof.
  intros He s. msimpl. unfold run_step. cbn. repeat split; auto.
  - exists [e]. split; [reflexivity|]. rewrite He. constructor.
  - exists []. rewrite app_nil_r. reflexivity.
Qed.

(** A step of the client: the ledger and the result stay as they are. *)
Lemma run_step_client (s s' : St) (evs : list Event) :
  same_ledger s s' -> trace s' = trace s ++ evs -> Forall B (submitted evs) ->
  run_step K B s s'.
Proof.
  intros (Hd & Ht & Hr) Htr Hb. unfold run_step. rewrite Ht, Hr.
  repeat split; auto.
  - exists evs. split; assumption.
  - exists []. rewrite app_nil_r. reflexivity.
Qed.

(** A step that only changes the result, keeping total and skip count. *)
Lemma run_step_result (f : GLSUploadResult -> GLSUploadResult) :
  (forall r, total (f r) = total r /\ skipped (f r) = skipped r
             /\ exists more, errors (f r) = errors r ++ more) ->
  steps (run_step K B) (modify (set_result f)).
Proof.
  intros Hf s. msimpl. destruct (Hf (result s)) as (Ht & Hs & He).
  unfold run_step. cbn. repeat split; auto.
  exists []. rewrite app_nil_r. split; [reflexivity | constructor].
Qed.

End RunStep.

(** [_execute_with_retry], run: attempts, backoff and terminal error. *)
Lemma execute_with_retry_spec (E : Env) (cfg : Config) (op : Operation) (s : St) :
  exists c r s',
    _execute_with_retry E cfg op s = (r, s')
    /\ (c <= GLS_RETRY_ATTEMPTS cfg)%nat
    /\ trace s' = trace s ++ (if client_open s then [] else [EvConnect])
                          ++ attempt_events cfg op 0 c
    /\ call_count (attempt_events cfg op 0 c) = c
    /\ same_ledger s s'
    /\ ((forall t, is_fault (soap E t op) = true) ->
        client_open s = true \/ connect E (trace s) = None ->
        (0 < GLS_RETRY_ATTEMPTS cfg)%nat ->
        c = GLS_RETRY_ATTEMPTS cfg /\
        exists t_last,
          trace s' = t_last ++ [EvCall op]
          /\ r = Raise (GLSClientError
               ("Fallito dopo " +:+ pretty (GLS_RETRY_ATTEMPTS cfg) +:+ " tentativi: "
                +:+ fault_text (soap E t_last op))))
    /\ (forall k later last e s0,
          (k < GLS_RETRY_ATTEMPTS cfg - 1)%nat ->
          soap E (trace s0) op = Faulted e \/ soap E (trace s0) op = TransportFailed e ->
          retry_loop E cfg op (k :: later) last s0
          = retry_loop E cfg op later (Some e)
              (set_trace (fun t => t ++ [EvCall op;
                                         EvSleep (GLS_RETRY_DELAY cfg * 2 ^ Z.of_nat k)]) s0))
    /\ GLS_RETRY_ATTEMPTS config = 3%nat
    /\ GLS_RETRY_DELAY config = 2
    /\ attempt_events config op 0 3
       = [EvCall op; EvSleep 2; EvCall op; EvSleep 4; EvCall op].
Proof.
  assert (Hstep : forall k later last e s0,
          (k < GLS_RETRY_ATTEMPTS cfg - 1)%nat ->
          soap E (trace s0) op = Faulted e \/ soap E (trace s0) op = TransportFailed e ->
          retry_loop E cfg op (k :: later) last s0
          = retry_loop E cfg op later (Some e)
              (set_trace (fun t => t ++ [EvCall op;
                                         EvSleep (GLS_RETRY_DELAY cfg * 2 ^ Z.of_nat k)]) s0)).
  { intros k later last e s0 Hk Hfault. cbn [retry_loop]. unfold call, sleep. msimpl.
    apply Nat.ltb_lt in Hk.
    destruct Hfault as [-> | ->]; rewrite Hk; msimpl;
      rewrite <- app_assoc; reflexivity. }
  unfold _execute_with_retry, bind.
  destruct (_get_client_spec E s) as (r0 & s0 & Hget & Hsame0 & Htr0 & Hr0).
  rewrite Hget. destruct r0 as [[]|e].
  - destruct (retry_loop_spec E cfg op (GLS_RETRY_ATTEMPTS cfg) 0 None s0 eq_refl)
      as (c & r & s' & Hrun & Hc & _ & Htr & Hsame & _ & Hall).
    exists c, r, s'. split; [exact Hrun|]. split; [exact Hc|].
    split; [rewrite Htr, Htr0, <- app_assoc; reflexivity|].
    split; [apply attempt_events_calls|].
    split; [eapply same_ledger_trans; eassumption|].
    split; [|split; [exact Hstep | repeat split]].
    intros Hfault _ Hpos. destruct (Hall Hfault) as [-> Hlast].
    split; [reflexivity|].
    destruct (GLS_RETRY_ATTEMPTS cfg); [lia | exact Hlast].
  - exists 0%nat, (Raise e), s0. split; [reflexivity|]. split; [lia|].
    cbn [attempt_events]. rewrite app_nil_r.
    split; [exact Htr0|]. split; [reflexivity|]. split; [exact Hsame0|].
    split; [|split; [exact Hstep | repeat split]].
    intros _ Hconn _. destruct Hr0 as (Hclosed & _ & m & Hm & _).
    destruct Hconn as [Ho | Hn]; congruence.
Qed.



(** ** Steps of the client, the tracker and the orchestrator *)

Section RunFacts.
Context (E : Env) (cfg : Config) (credentials : GLSCredentials).
Context (K : string -> Prop) (B : list GLSParcel -> Prop).

Local Abbreviation step := (run_step K B).

Lemma submitted_attempt_events (b : list GLSParcel) (pdf : bool) (k c : nat) :
  B b -> Forall B (submitted (attempt_events cfg (AddParcel credentials b pdf) k c)).
Proof.
  intros Hb. revert k. induction c as [|c IH]; intros k; [constructor|].
  destruct c as [|c].
  - cbn. constructor; [exact Hb | constructor].
  - change (attempt_events cfg (AddParcel credentials b pdf) k (S (S c)))
      with (EvCall (AddParcel credentials b pdf)
              :: EvSleep (GLS_RETRY_DELAY cfg * 2 ^ Z.of_nat k)
              :: attempt_events cfg (AddParcel credentials b pdf) (S k) (S c)).
    cbn [submitted omap]. constructor; [exact Hb | apply IH].
Qed.

Lemma submitted_other_op (op : Operation) (k c : nat) :
  (forall c0 b pdf, op <> AddParcel c0 b pdf) ->
  submitted (attempt_events cfg op k c) = [].
Proof.
  intros Hop.
  assert (Hcall : submitted [EvCall op] = []).
  { destruct op; try reflexivity. exfalso. eapply Hop. reflexivity. }
  revert k. induction c as [|c IH]; intros k; [reflexivity|].
  destruct c as [|c]; [exact Hcall|].
  change (attempt_events cfg op k (S (S c)))
    with ([EvCall op] ++ [EvSleep (GLS_RETRY_DELAY cfg * 2 ^ Z.of_nat k)]
            ++ attempt_events cfg op (S k) (S c)).
  rewrite !submitted_app, Hcall, IH. reflexivity.
Qed.

Lemma add_parcels_step (batch : list GLSParcel) (pdf : bool) :
  B batch -> steps step (add_parcels E cfg credentials batch pdf).
Proof.
  intros Hb s. unfold add_parcels.
  destruct (GLS_MAX_PARCELS_PER_BATCH cfg <? length batch)%nat;
    [apply run_step_refl|].
  destruct batch as [|p batch]; [apply run_step_refl|].
  unfold bind.
  destruct (execute_with_retry_spec E cfg (AddParcel credentials (p :: batch) pdf) s)
    as (c & r & s' & Hrun & _ & Htr & _ & Hsame & _).
  rewrite Hrun. assert (Hstep : step s s').
  { eapply run_step_client; [exact Hsame | exact Htr |].
    rewrite submitted_app. apply Forall_app. split.
    - destruct (client_open s); repeat constructor.
    - apply submitted_attempt_events. exact Hb. }
  destruct r; exact Hstep.
Qed.

Lemma close_work_day_step : steps step (close_work_day E cfg credentials).
Proof.
  intros s. unfold close_work_day, bind.
  destruct (execute_with_retry_spec E cfg (CloseWorkDay credentials) s)
    as (c & r & s' & Hrun & _ & Htr & _ & Hsame & _).
  rewrite Hrun. assert (Hstep : step s s').
  { eapply run_step_client; [exact Hsame | exact Htr |].
    rewrite submitted_app. apply Forall_app. split.
    - destruct (client_open s); repeat constructor.
    - rewrite submitted_other_op; [constructor | discriminate]. }
  destruct r; exact Hstep.
Qed.

Lemma now_step : steps step (now E).
Proof.
  unfold now. apply steps_get_bind. intros s.
  apply (steps_bind _ (run_step_trans K B)).
  - apply run_step_emit. reflexivity.
  - intros _. apply steps_ret, run_step_refl.
Qed.

Lemma set_disk_step (f : gmap string FileContent -> gmap string FileContent) :
  steps step (modify (set_disk f)).
Proof.
  intros s. msimpl. unfold run_step. cbn. repeat split; auto.
  - exists []. rewrite app_nil_r. split; [reflexivity | constructor].
  - exists []. rewrite app_nil_r. reflexivity.
Qed.

Lemma _save_step : steps step (_save E).
Proof.
  unfold _save. apply steps_get_bind. intros s.
  apply (steps_bind _ (run_step_trans K B)).
  - apply run_step_emit. reflexivity.
  - intros _. destruct (io E (trace s)).
    + apply set_disk_step.
    + apply steps_raise, run_step_refl.
    + apply (steps_bind _ (run_step_trans K B));
        [apply set_disk_step | intros _; apply steps_raise, run_step_refl].
    + apply (steps_bind _ (run_step_trans K B));
        [apply set_disk_step | intros _; apply steps_raise, run_step_refl].
Qed.

Lemma set_uploads_step (key : string) (rec : UploadRecord) :
  K key ->
  steps step (modify (set_data (fun d =>
    {| uploads := <[key := rec]> (uploads d); history := history d |}))).
Proof.
  intros Hk s. msimpl. unfold run_step. cbn. repeat split; auto.
  - exists []. rewrite app_nil_r. split; [reflexivity | constructor].
  - intros k Hnk. apply lookup_insert_ne. intros ->. contradiction.
  - exists []. rewrite app_nil_r. reflexivity.
Qed.

Lemma set_history_step (f : list HistoryEntry -> list HistoryEntry) :
  steps step (modify (set_data (fun d =>
    {| uploads := uploads d; history := f (history d) |}))).
Proof.
  intros s. msimpl. unfold run_step. cbn. repeat split; auto.
  - exists []. rewrite app_nil_r. split; [reflexivity | constructor].
  - exists []. rewrite app_nil_r. reflexivity.
Qed.

Lemma mark_uploaded_step (file_path : string) (idx : Z) (row_data : gmap string string)
    (shipment_id : string) (response_data : option (gmap string string)) :
  K (_generate_row_key E file_path idx row_data) ->
  steps step (mark_uploaded E file_path idx row_data shipment_id response_data).
Proof.
  intros Hk. unfold mark_uploaded.
  apply (steps_bind _ (run_step_trans K B)); [apply now_step|].
  intros uploaded_at.
  apply (steps_bind _ (run_step_trans K B));
    [apply set_uploads_step; exact Hk|].
  intros _.
  apply (steps_bind _ (run_step_trans K B)); [apply now_step|].
  intros timestamp.
  apply (steps_bind _ (run_step_trans K B)).
  - apply (set_history_step (fun h => h ++ [_])).
  - intros _. apply _save_step.
Qed.

Lemma add_success_step (response : GLSResponse) :
  steps step (modify (set_result (add_success response))).
Proof.
  apply run_step_result. intros r. cbn. repeat split.
  exists []. rewrite app_nil_r. reflexivity.
Qed.

Lemma add_failure_step (error bda : string) :
  steps step (modify (set_result (add_failure error bda))).
Proof.
  apply run_step_result. intros r. cbn. repeat split. eexists. reflexivity.
Qed.

Lemma append_error_step (e : string) :
  steps step (modify (set_result (append_error e))).
Proof.
  apply run_step_result. intros r. cbn. repeat split. eexists. reflexivity.
Qed.

Lemma reconcile_step (file_path : string)
    (batch_indices : list (Z * gmap string string)) (i : nat) (response : GLSResponse) :
  (forall idx row_data, (idx, row_data) ∈ batch_indices ->
     K (_generate_row_key E file_path idx row_data)) ->
  steps step (reconcile E file_path batch_indices i response).
Proof.
  intros Hk. unfold reconcile.
  destruct (batch_indices !! i) as [[idx row_data]|] eqn:Hi;
    [|apply steps_raise, run_step_refl].
  destruct (is_success response).
  - apply (steps_bind _ (run_step_trans K B));
      [apply add_success_step|].
    intros _. apply mark_uploaded_step. apply Hk.
    eapply list_elem_of_lookup_2. exact Hi.
  - apply add_failure_step.
Qed.

Lemma slice_elem_of {A} (a b : nat) (l : list A) (x : A) : x ∈ slice a b l -> x ∈ l.
Proof.
  unfold slice. intros H.
  apply (subseteq_drop a l). apply (subseteq_take (b - a) (drop a l)). exact H.
Qed.

Lemma upload_batch_step (parcels : list GLSParcel)
    (row_indices : list (Z * gmap string string)) (file_path : string)
    (generate_pdf : bool) (batch_start : nat) :
  B (slice batch_start
       (Nat.min (batch_start + GLS_MAX_PARCELS_PER_BATCH cfg) (length parcels)) parcels) ->
  (forall idx row_data, (idx, row_data) ∈ row_indices ->
     K (_generate_row_key E file_path idx row_data)) ->
  steps step (upload_batch E cfg credentials parcels row_indices file_path
                generate_pdf batch_start).
Proof.
  intros Hb Hk. unfold upload_batch. apply (steps_try _ (run_step_trans K B)).
  - apply (steps_bind _ (run_step_trans K B)).
    + apply add_parcels_step. exact Hb.
    + intros responses.
      apply (steps_for_enumerate _ (run_step_refl K B) (run_step_trans K B)).
      intros j x. apply reconcile_step.
      intros idx row_data Hin. apply Hk. eapply slice_elem_of. exact Hin.
  - intros m. apply (steps_for_each _ (run_step_refl K B) (run_step_trans K B)).
    intros [idx row_data] _. apply add_failure_step.
Qed.

Lemma _upload_batches_step (parcels : list GLSParcel)
    (row_indices : list (Z * gmap string string)) (file_path : string)
    (generate_pdf : bool) :
  (forall b, b ∈ batches cfg parcels -> B b) ->
  (forall idx row_data, (idx, row_data) ∈ row_indices ->
     K (_generate_row_key E file_path idx row_data)) ->
  steps step (_upload_batches E cfg credentials parcels row_indices file_path generate_pdf).
Proof.
  intros Hb Hk. unfold _upload_batches.
  destruct (GLS_MAX_PARCELS_PER_BATCH cfg =? 0)%nat; [apply steps_raise, run_step_refl|].
  apply (steps_for_each _ (run_step_refl K B) (run_step_trans K B)).
  intros batch_start Hin. apply upload_batch_step; [|exact Hk].
  apply Hb. unfold batches. apply list_elem_of_In, in_map_iff.
  exists batch_start. split; [reflexivity | apply list_elem_of_In; exact Hin].
Qed.

End RunFacts.

(** ** Batches (gls_processor.py) *)

Section BatchFacts.
Context {A : Type}.

Lemma py_range_zero (n m : nat) :
  py_range 0 n m = List.map (fun i => i * m)%nat (seq 0 ((n + m - 1) / m)).
Proof. unfold py_range. rewrite Nat.sub_0_r. reflexivity. Qed.

Lemma rounds_cover (n m : nat) : (0 < m)%nat -> (n <= (n + m - 1) / m * m)%nat.
Proof.
  intros Hm.
  pose proof (Nat.div_mod_eq (n + m - 1) m) as Hdiv.
  pose proof (Nat.mod_upper_bound (n + m - 1) m ltac:(lia)) as Hmod.
  nia.
Qed.


Lemma slice_round (m i : nat) (l : list A) :
  slice (i * m) (Nat.min (i * m + m) (length l)) l = take m (drop (i * m) l).
Proof.
  unfold slice.
  destruct (Nat.le_gt_cases (i * m + m) (length l)) as [Hle | Hgt].
  - rewrite Nat.min_l by lia. f_equal. lia.
  - rewrite Nat.min_r by lia.
    rewrite !take_ge; [reflexivity | |]; rewrite length_drop; lia.
Qed.

Lemma concat_rounds (m q : nat) (l : list A) :
  concat (List.map (fun i => take m (drop (i * m) l)) (seq 0 q)) = take (q * m) l.
Proof.
  induction q as [|q IH]; [reflexivity|].
  rewrite seq_S, List.map_app, concat_app, IH. cbn [List.map concat].
  rewrite app_nil_r, take_take_drop. f_equal. lia.
Qed.

Lemma concat_slices (m : nat) (l : list A) :
  (0 < m)%nat ->
  concat (List.map (fun bs => slice bs (Nat.min (bs + m) (length l)) l)
                   (py_range 0 (length l) m)) = l.
Proof.
  intros Hm. rewrite py_range_zero, List.map_map.
  erewrite List.map_ext; [|intros i; apply slice_round].
  rewrite concat_rounds. apply take_ge. apply rounds_cover. exact Hm.
Qed.



End BatchFacts.



(** ** Response parsing (gls_client.py) *)

Section ParseFacts.
Context (E : Env).






Lemma ko_response_failure (b e : string) : is_success (ko_response b e) = false.
Proof. reflexivity. Qed.

End ParseFacts.




(** ** The ledger (upload_tracker.py) *)

Section LedgerFacts.
Context (E : Env).

(** [mark_uploaded], run: the state it leaves for each behaviour of the
    disk. *)
Lemma mark_uploaded_run (file_path : string) (idx : Z) (row_data : gmap string string)
    (shipment_id : string) (response_data : option (gmap string string)) (s : St) :
  let d' := marked_data E file_path idx row_data shipment_id response_data s in
  let folder := base_path (tracker s) in
  let after files :=
    {| trace := trace s ++ [EvNow; EvNow; EvSave folder]; disk := files;
       client_open := client_open s;
       tracker := {| base_path := folder; _data := d' |};
       result := result s |} in
  mark_uploaded E file_path idx row_data shipment_id response_data s
  = match io E (trace s ++ [EvNow; EvNow]) with
    | IoOk => (Ok tt, after (<[folder := JsonText d']> (disk s)))
    | IoFailOpen e =>
        (Raise (RuntimeError ("Impossibile salvare tracker: " +:+ e)), after (disk s))
    | IoFailWrite n e =>
        (Raise (RuntimeError ("Impossibile salvare tracker: " +:+ e)),
         after (<[folder := PartialText d' n]> (disk s)))
    | IoKilled n => (Raise ProcessKilled, after (<[folder := PartialText d' n]> (disk s)))
    end.
Proof.
  unfold mark_uploaded, now, _save, marked_data. msimpl.
  rewrite <- !app_assoc. cbn [app].
  destruct (io E (trace s ++ [EvNow; EvNow])); reflexivity.
Qed.



End LedgerFacts.



(** ** Reconciliation (gls_processor.py) *)

Lemma pretty_N_go_nonempty (x : N) (s : string) : s <> "" -> pretty_N_go x s <> "".
Proof.
  revert s. induction (N.lt_wf_0 x) as [x _ IH]; intros s Hs.
  destruct (N.eq_dec x 0%N) as [-> | Hx]; [rewrite pretty_N_go_0; exact Hs|].
  rewrite pretty_N_go_step by lia. apply IH; [apply N.div_lt; lia | discriminate].
Qed.

Lemma pretty_N_nonempty (x : N) : pretty x <> "".
Proof.
  unfold pretty, pretty_N. destruct (decide (x = 0%N)); [discriminate|].
  rewrite pretty_N_go_step by lia. apply pretty_N_go_nonempty. discriminate.
Qed.

Lemma of_int_truthy (z : Z) : PyStr.truthy (PyStr.of_int z) = true.
Proof.
  apply PyStrFacts.truthy_iff. unfold PyStr.of_int, pretty, pretty_Z.
  destruct z as [|p|p]; [discriminate | apply pretty_N_nonempty | discriminate].
Qed.

Section ReconcileFacts.
Context (E : Env) (cfg : Config) (credentials : GLSCredentials).

Lemma add_parcels_same_ledger (batch : list GLSParcel) (pdf : bool) (s : St) :
  same_ledger s (snd (add_parcels E cfg credentials batch pdf s)).
Proof.
  unfold add_parcels.
  destruct (GLS_MAX_PARCELS_PER_BATCH cfg <? length batch)%nat; [apply same_ledger_refl|].
  destruct batch as [|p batch]; [apply same_ledger_refl|].
  unfold bind.
  destruct (execute_with_retry_spec E cfg (AddParcel credentials (p :: batch) pdf) s)
    as (c & r & s' & Hrun & _ & _ & _ & Hsame & _).
  rewrite Hrun. destruct r; exact Hsame.
Qed.

(** The loop over the responses of a batch, from position [i]. *)
Lemma reconcile_loop_spec (file_path : string)
    (batch_indices : list (Z * gmap string string))
    (responses : list GLSResponse) (i : nat) (s : St) :
  (i <= length batch_indices)%nat ->
  exists r s',
    for_enumerate i responses (reconcile E file_path batch_indices) s = (r, s')
    /\ match r with
       | Ok _ =>
           (i + length responses <= length batch_indices)%nat
           /\ counted (result s') = (counted (result s) + length responses)%nat
       | Raise IndexError =>
           (length batch_indices < i + length responses)%nat
           /\ counted (result s') = (counted (result s) + (length batch_indices - i))%nat
       | Raise (RuntimeError _) | Raise ProcessKilled => exists t, io E t <> IoOk
       | Raise _ => False
       end.
Proof.
  revert i s. induction responses as [|response rest IH]; intros i s Hin.
  - eexists _, _. split; [reflexivity|]. cbn [length]. split; lia.
  - cbn [for_enumerate]. unfold bind at 1. unfold reconcile at 1.
    destruct (batch_indices !! i) as [[idx row_data]|] eqn:Hi.
    + apply lookup_lt_Some in Hi.
      destruct (is_success response).
      * unfold bind at 1. msimpl. rewrite mark_uploaded_run. cbn [trace].
        destruct (io E _) eqn:Hio.
        -- match goal with |- context [for_enumerate _ _ _ ?s1] =>
             destruct (IH (S i) s1 ltac:(lia)) as (r & s' & Hrun & Hr) end.
           exists r, s'. split; [exact Hrun|].
           unfold counted in *. cbn [result add_success uploaded failed] in Hr.
           cbn [length].
           destruct r as [[]|[]]; try exact Hr; destruct Hr; split; lia.
        -- eexists _, _. split; [reflexivity|]. eexists. rewrite Hio. discriminate.
        -- eexists _, _. split; [reflexivity|]. eexists. rewrite Hio. discriminate.
        -- eexists _, _. split; [reflexivity|]. eexists. rewrite Hio. discriminate.
      * msimpl.
        match goal with |- context [for_enumerate _ _ _ ?s1] =>
          destruct (IH (S i) s1 ltac:(lia)) as (r & s' & Hrun & Hr) end.
        exists r, s'. split; [exact Hrun|].
        unfold counted in *. cbn [result add_failure uploaded failed] in Hr.
        cbn [length].
        destruct r as [[]|[]]; try exact Hr; destruct Hr; split; lia.
    + apply lookup_ge_None in Hi. msimpl.
      eexists _, _. split; [reflexivity|]. cbn [length]. split; lia.
Qed.

End ReconcileFacts.



Section GroupFailureFacts.
Context (E : Env) (m : string).

(** The handler of [upload_batch]: one failure per row of the batch. *)
Lemma fail_group_spec (batch_indices : list (Z * gmap string string)) (s : St) :
  exists s',
    for_each batch_indices
      (fun '(idx, row_data) => modify (set_result (add_failure m (PyStr.of_int idx)))) s
    = (Ok tt, s')
    /\ trace s' = trace s /\ disk s' = disk s /\ tracker s' = tracker s
    /\ client_open s' = client_open s
    /\ failed (result s') = (failed (result s) + length batch_indices)%nat
    /\ uploaded (result s') = uploaded (result s)
    /\ skipped (result s') = skipped (result s)
    /\ total (result s') = total (result s)
    /\ responses (result s') = responses (result s)
    /\ errors (result s')
       = errors (result s)
         ++ List.map (fun '(idx, _) => "ERRORE " +:+ PyStr.of_int idx +:+ ": " +:+ m)
              batch_indices.
Proof.
  revert s. induction batch_indices as [|[idx row_data] rest IH]; intros s.
  - exists s. cbn. rewrite app_nil_r. repeat split; lia.
  - cbn [for_each]. msimpl.
    match goal with |- context [for_each _ _ ?s1] =>
      destruct (IH s1) as (s' & Hrun & Htr & Hd & Ht & Hc & Hf & Hu & Hs & Htot & Hr & He) end.
    exists s'. split; [exact Hrun|].
    cbn [trace disk tracker client_open result add_failure failed uploaded skipped
         total responses errors] in *.
    rewrite of_int_truthy in He.
    repeat split; try assumption.
    + cbn [length]. lia.
    + rewrite He, <- app_assoc. reflexivity.
Qed.

End GroupFailureFacts.

(** C6: when [add_parcels] raises [GLSClientError] for a group,
    [upload_batch] completes normally: every row of the group is added to
    the failures with the text of the exception, nothing else in the result
    and nothing in the ledger changes, and the loop goes on with the next
    group. In the scenario of three rows with a batch limit of 2, where the
    first call succeeds for both parcels and all later calls time out, the
    groups have 2 and 1 parcels, four calls are made, two records are
    written, and the result is uploaded 2, skipped 0, failed 1. *)
Theorem group_failure_isolation (E : Env) (cfg : Config) (credentials : GLSCredentials)
    (parcels : list GLSParcel) (row_indices : list (Z * gmap string string))
    (file_path : string) (generate_pdf : bool) (batch_start : nat) (later : list nat)
    (m : string) (s : St) :
  let batch_end := Nat.min (batch_start + GLS_MAX_PARCELS_PER_BATCH cfg) (length parcels) in
  let batch := slice batch_start batch_end parcels in
  let batch_indices := slice batch_start batch_end row_indices in
  let round := upload_batch E cfg credentials parcels row_indices file_path generate_pdf in
  fst (add_parcels E cfg credentials batch generate_pdf s) = Raise (GLSClientError m) ->
  (exists s',
     round batch_start s = (Ok tt, s')
     /\ failed (result s') = (failed (result s) + length batch_indices)%nat
     /\ errors (result s')
        = errors (result s)
          ++ List.map (fun '(idx, _) => "ERRORE " +:+ PyStr.of_int idx +:+ ": " +:+ m)
               batch_indices
     /\ uploaded (result s') = uploaded (result s)
     /\ skipped (result s') = skipped (result s)
     /\ total (result s') = total (result s)
     /\ responses (result s') = responses (result s)
     /\ tracker s' = tracker s /\ disk s' = disk s
     /\ for_each (batch_start :: later) round s = for_each later round s')
  /\ (let run :=
        process_file env_scenario config_max_2 sample_credentials true
          "/data/ordini_VALIDATO.xlsx" 1 (3 # 1) false false three_rows
          (new_process ∅ []) in
      exists res,
        fst run = Ok res
        /\ total res = 3%nat /\ uploaded res = 2%nat /\ skipped res = 0%nat
        /\ failed res = 1%nat
        /\ errors res = ["ERRORE 2: Fallito dopo 3 tentativi: timed out"]
        /\ List.map length (submitted (sys_trace (snd run))) = [2; 1; 1; 1]%nat
        /\ call_count (sys_trace (snd run)) = 4%nat
        /\ List.filter (fun e => match e with EvSleep _ => true | _ => false end)
             (sys_trace (snd run)) = [EvSleep 2; EvSleep 4]
        /\ (size <$> (uploads <$> (_data <$> sys_tracker (snd run)))) = Some 2%nat).
Proof.
  intros batch_end batch batch_indices round Hraise. split.
  - destruct (add_parcels E cfg credentials batch generate_pdf s) as [r s1] eqn:Hadd.
    cbn [fst] in Hraise. subst r.
    pose proof (add_parcels_same_ledger E cfg credentials batch generate_pdf s) as Hsame.
    rewrite Hadd in Hsame. cbn [snd] in Hsame. destruct Hsame as (Hd1 & Ht1 & Hr1).
    destruct (fail_group_spec m batch_indices s1)
      as (s' & Hrun & _ & Hd & Ht & _ & Hf & Hu & Hs & Htot & Hresp & He).
    assert (Hround : round batch_start s = (Ok tt, s')).
    { subst round. unfold upload_batch, try_except_GLSClientError, bind.
      fold batch_end. fold batch. rewrite Hadd. exact Hrun. }
    exists s'. split; [exact Hround|].
    rewrite Hr1 in Hf, He, Hu, Hs, Htot, Hresp.
    split; [exact Hf|]. split; [exact He|]. split; [exact Hu|]. split; [exact Hs|].
    split; [exact Htot|]. split; [exact Hresp|].
    split; [rewrite Ht; exact Ht1|]. split; [rewrite Hd; exact Hd1|].
    cbn [for_each]. unfold bind. rewrite Hround. reflexivity.
  - intros run.
    exists (match fst run with Ok res => res | Raise _ => empty_result end).
    split; [vm_compute; reflexivity|].
    repeat split; vm_compute; reflexivity.
Qed.

(** A group of one parcel against a service that always times out. *)
Lemma group_failure_isolation_witness :
  let p := new_GLSParcel "Uno" "Via A 1" "Roma" "00100" "RM" 1 (3 # 1) "" "" "" "" in
  fst (upload_batch env_timeout config sample_credentials [p]
         [(0, sample_row "Uno" "Via A 1")] "/data/ordini_VALIDATO.xlsx" false 0
         fresh_state)
  = Ok tt.
Proof.
  intros p.
  destruct (group_failure_isolation env_timeout config sample_credentials [p]
              [(0, sample_row "Uno" "Via A 1")] "/data/ordini_VALIDATO.xlsx" false 0 []
              "Fallito dopo 3 tentativi: timeout" fresh_state)
    as ((s' & Hround & _) & _).
  - reflexivity.
  - rewrite Hround. reflexivity.
Defined.

(** ** Idempotency (upload_tracker.py, gls_processor.py) *)

Section PrepareFacts.
Context (E : Env) (file_path : string) (colli : Z) (peso : Q).











End PrepareFacts.

Section Preserves.
Context (P : St -> Prop).

Lemma preserves_ret {A} (a : A) : preserves P (ret a).
Proof. intros s Hs. exact Hs. Qed.

Lemma preserves_raise {A} (e : Exc) : preserves P (@raise A e).
Proof. intros s Hs. cbn. destruct e; auto. Qed.

Lemma preserves_bind {A B} (c : M A) (k : A -> M B) :
  preserves P c -> (forall a, preserves P (k a)) -> preserves P (bind c k).
Proof.
  intros Hc Hk s Hs. unfold bind. specialize (Hc s Hs).
  destruct (c s) as [[a|e] s1]; cbn [fst snd] in *.
  - apply Hk. exact Hc.
  - exact Hc.
Qed.

Lemma preserves_get_bind {B} (k : St -> M B) :
  (forall s, P s ->
     match fst (k s s) with
     | Ok _ | Raise (GLSClientError _) => P (snd (k s s))
     | Raise _ => True
     end) -> preserves P (bind get k).
Proof. intros Hk s Hs. unfold bind, get. apply Hk. exact Hs. Qed.

Lemma preserves_modify (f : St -> St) :
  (forall s, P s -> P (f s)) -> preserves P (modify f).
Proof. intros Hf s Hs. cbn. apply Hf. exact Hs. Qed.

Lemma preserves_try {A} (body : M A) (handler : string -> M A) :
  preserves P body -> (forall m, preserves P (handler m)) ->
  preserves P (try_except_GLSClientError body handler).
Proof.
  intros Hb Hh s Hs. unfold try_except_GLSClientError. specialize (Hb s Hs).
  destruct (body s) as [[a|e] s1]; cbn [fst snd] in *; [exact Hb|].
  destruct e; cbn [fst snd]; auto.
  apply Hh. exact Hb.
Qed.

Lemma preserves_for_each {A} (xs : list A) (body : A -> M unit) :
  (forall x, preserves P (body x)) -> preserves P (for_each xs body).
Proof.
  intros Hb. induction xs as [|x xs IH]; cbn [for_each].
  - apply preserves_ret.
  - apply preserves_bind; [apply Hb | intros _; exact IH].
Qed.

Lemma preserves_for_enumerate {A} (i : nat) (xs : list A) (body : nat -> A -> M unit) :
  (forall j x, preserves P (body j x)) -> preserves P (for_enumerate i xs body).
Proof.
  intros Hb. revert i. induction xs as [|x xs IH]; intros i; cbn [for_enumerate].
  - apply preserves_ret.
  - apply preserves_bind; [apply Hb | intros _; apply IH].
Qed.

End Preserves.

Section SyncedFacts.
Context (E : Env) (cfg : Config) (credentials : GLSCredentials).










End SyncedFacts.

Section ProcessFacts.
Context (E : Env) (cfg : Config) (credentials : GLSCredentials).
Context (file_path : string) (colli : Z) (peso : Q) (generate_pdf close_workday : bool).

Local Abbreviation after_prepare :=
  (upload_and_close E cfg credentials file_path generate_pdf close_workday).

Lemma after_prepare_step (K : string -> Prop) (B : list GLSParcel -> Prop)
    (parcels_to_upload : list GLSParcel) (row_indices : list (Z * gmap string string)) :
  (forall b, b ∈ batches cfg parcels_to_upload -> B b) ->
  (forall idx row_data, (idx, row_data) ∈ row_indices ->
     K (_generate_row_key E file_path idx row_data)) ->
  steps (run_step K B) (after_prepare parcels_to_upload row_indices).
Proof.
  intros Hb Hk. unfold upload_and_close. apply (steps_bind _ (run_step_trans K B)).
  - destruct parcels_to_upload; [apply steps_ret, run_step_refl|].
    apply _upload_batches_step; assumption.
  - intros _. apply steps_get_bind. intros s.
    destruct (close_workday && (0 <? uploaded (result s))%nat);
      [|apply run_step_refl].
    apply (steps_try _ (run_step_trans K B)).
    + apply (steps_bind _ (run_step_trans K B)); [apply close_work_day_step|].
      intros close_result. destruct (negb (cw_success close_result)).
      * apply append_error_step.
      * apply steps_ret, run_step_refl.
    + intros m. apply append_error_step.
Qed.




End ProcessFacts.







(* ===================================================================== *)
(** * Further properties *)
(* ===================================================================== *)

(** ** Queries on the ledger (upload_tracker.py) *)

Lemma starts_with_app (a b r : string) : PyStr.starts_with (a +:+ b) (a +:+ b +:+ r) = true.
Proof.
  induction a as [|c a IH]; simpl.
  - induction b as [|c b IH]; simpl; [reflexivity|].
    rewrite Ascii.eqb_refl. exact IH.
  - rewrite Ascii.eqb_refl. exact IH.
Qed.

Section QueryFacts.
Context (E : Env).

Lemma key_of_own_file (file_path : string) (idx : Z) (row_data : gmap string string) :
  key_of_file E file_path (_generate_row_key E file_path idx row_data) = true.
Proof. unfold key_of_file, _generate_row_key. apply starts_with_app. Qed.

Lemma count_uploaded_size (file_path : string) (t : UploadTracker) :
  count_uploaded E file_path t
  = size (filter (fun kv : string * UploadRecord => Is_true (key_of_file E file_path kv.1))
                 (uploads (_data t))).
Proof.
  unfold count_uploaded, get_file_uploads. rewrite length_fmap. apply length_map_to_list.
Qed.

End QueryFacts.

(** X1: after [mark_uploaded], whatever the disk does, [get_upload_info]
    for the same file, row and data returns the record just written, with
    the shipment id, the row index, the file name and the company name of
    the call, and with the response only if it is a non-empty dict; the
    information of every row with another key is what it was; and a second
    [mark_uploaded] of the same row replaces the record, so that the last
    shipment id is the one returned. *)
Theorem get_upload_info_after_mark (E : Env) (file_path : string) (idx : Z)
    (row_data : gmap string string) (shipment_id : string)
    (response_data : option (gmap string string)) (s : St) :
  let s1 := snd (mark_uploaded E file_path idx row_data shipment_id response_data s) in
  (exists record,
     get_upload_info E file_path idx row_data (tracker s1) = Some record
     /\ u_shipment_id record = shipment_id /\ u_row record = idx
     /\ u_file record = path_name E file_path
     /\ u_ragione_sociale record = get_str row_data "ragione_sociale"
     /\ u_uploaded_at record = now_iso E (trace s)
     /\ u_response record
        = match response_data with
          | Some d => if bool_decide (d = ∅) then None else Some d
          | None => None
          end)
  /\ (forall file_path' idx' row_data',
        _generate_row_key E file_path' idx' row_data'
        <> _generate_row_key E file_path idx row_data ->
        get_upload_info E file_path' idx' row_data' (tracker s1)
        = get_upload_info E file_path' idx' row_data' (tracker s))
  /\ (forall shipment_id' response_data',
        let s2 := snd (mark_uploaded E file_path idx row_data shipment_id'
                         response_data' s1) in
        u_shipment_id <$> get_upload_info E file_path idx row_data (tracker s2)
        = Some shipment_id'
        /\ size (uploads (_data (tracker s2))) = size (uploads (_data (tracker s1)))
        /\ length (history (_data (tracker s2)))
           = S (length (history (_data (tracker s1))))).
Proof.
  intros s1. subst s1.
  assert (Hdata : forall sh rd' st,
            _data (tracker (snd (mark_uploaded E file_path idx row_data sh rd' st)))
            = marked_data E file_path idx row_data sh rd' st).
  { intros sh rd' st. rewrite mark_uploaded_run. destruct (io E _); reflexivity. }
  unfold get_upload_info. split; [|split].
  - rewrite Hdata. unfold marked_data. cbn [uploads]. rewrite lookup_insert_eq.
    eexists. split; [reflexivity|]. repeat split.
  - intros file_path' idx' row_data' Hne. rewrite Hdata. unfold marked_data.
    cbn [uploads]. apply lookup_insert_ne. congruence.
  - intros shipment_id' response_data'. cbv zeta.
    set (s1 := snd (mark_uploaded E file_path idx row_data shipment_id response_data s)).
    rewrite (Hdata shipment_id' response_data' s1).
    unfold marked_data. cbn [uploads history].
    rewrite lookup_insert_eq. split; [reflexivity|]. split.
    + apply map_size_insert_Some. subst s1. rewrite Hdata. unfold marked_data.
      cbn [uploads]. rewrite lookup_insert_eq. eauto.
    + rewrite length_app. cbn. lia.
Qed.

Lemma sum_counts_bump (acc : gmap string nat) (k : string) :
  sum_counts (<[k := (default 0 (acc !! k) + 1)%nat]> acc) = S (sum_counts acc).
Proof.
  unfold sum_counts.
  destruct (acc !! k) as [c|] eqn:Hk; cbn [default].
  - rewrite <- (insert_delete_eq acc), map_fold_insert_L;
      [|intros; cbn; lia | apply lookup_delete_eq].
    rewrite <- (insert_delete_id acc k c Hk) at 2.
    rewrite map_fold_insert_L; [cbn; lia | intros; cbn; lia | apply lookup_delete_eq].
  - rewrite map_fold_insert_L; [cbn; lia | intros; cbn; lia | exact Hk].
Qed.

(** X2: [mark_uploaded] always adds one entry to the history; for a row
    that was not in the ledger it adds one record, so that [total_uploads]
    and [count_uploaded] of its file grow by one, and for a row that was
    there it adds none; the count of a file whose key prefix does not match
    the key stays as it was; and the count of a file never exceeds
    [total_uploads]. *)
Theorem ledger_counts_after_mark (E : Env) (file_path : string) (idx : Z)
    (row_data : gmap string string) (shipment_id : string)
    (response_data : option (gmap string string)) (s : St) :
  let t := tracker s in
  let t' := tracker (snd (mark_uploaded E file_path idx row_data shipment_id
                            response_data s)) in
  history_entries (get_stats t') = S (history_entries (get_stats t))
  /\ (if is_uploaded E file_path idx row_data t
      then total_uploads (get_stats t') = total_uploads (get_stats t)
           /\ count_uploaded E file_path t' = count_uploaded E file_path t
      else total_uploads (get_stats t') = S (total_uploads (get_stats t))
           /\ count_uploaded E file_path t' = S (count_uploaded E file_path t))
  /\ (forall other,
        key_of_file E other (_generate_row_key E file_path idx row_data) = false ->
        count_uploaded E other t' = count_uploaded E other t)
  /\ (forall any, (count_uploaded E any t' <= total_uploads (get_stats t'))%nat)
  /\ (1 <= count_uploaded E file_path t')%nat.
Proof.
  intros t t'.
  assert (Hdata : _data t' = marked_data E file_path idx row_data shipment_id
                               response_data s).
  { subst t'. rewrite mark_uploaded_run. destruct (io E _); reflexivity. }
  set (key := _generate_row_key E file_path idx row_data).
  set (P := fun f (kv : string * UploadRecord) => Is_true (key_of_file E f kv.1)).
  assert (Hup : exists record,
             uploads (_data t') = <[key := record]> (uploads (_data t))).
  { rewrite Hdata. unfold marked_data. cbn [uploads]. eexists. reflexivity. }
  destruct Hup as [record Hup].
  assert (Hcount : forall f u, count_uploaded E f u = size (filter (P f) (uploads (_data u))))
    by (intros; apply count_uploaded_size).
  assert (Hown : P file_path (key, record)).
  { unfold P, key. cbn [fst]. rewrite key_of_own_file. exact I. }
  assert (Hcases : match uploads (_data t) !! key with
                   | Some _ => size (uploads (_data t')) = size (uploads (_data t))
                       /\ count_uploaded E file_path t' = count_uploaded E file_path t
                   | None => size (uploads (_data t')) = S (size (uploads (_data t)))
                       /\ count_uploaded E file_path t' = S (count_uploaded E file_path t)
                   end).
  { rewrite !Hcount, Hup, (map_filter_insert_True _ _ _ _ Hown).
    destruct (uploads (_data t) !! key) as [old|] eqn:Hold.
    - split; [apply map_size_insert_Some; eauto|].
      apply map_size_insert_Some. exists old.
      apply map_lookup_filter_Some_2; [exact Hold | exact Hown].
    - split; [apply map_size_insert_None; exact Hold|].
      apply map_size_insert_None. apply map_lookup_filter_None_2. left. exact Hold. }
  split; [|split; [|split; [|split]]].
  - unfold get_stats. cbn [history_entries]. rewrite Hdata. unfold marked_data.
    cbn [history]. rewrite length_app. subst t. cbn. lia.
  - unfold is_uploaded. fold key. unfold get_stats. cbn [total_uploads].
    destruct (uploads (_data t) !! key) as [old|] eqn:Hold.
    + rewrite bool_decide_eq_true_2 by eauto. exact Hcases.
    + rewrite bool_decide_eq_false_2 by (intros [? ?]; discriminate). exact Hcases.
  - intros other Hother. rewrite !Hcount, Hup.
    rewrite map_filter_insert_not; [reflexivity|].
    intros y. unfold P. cbn [fst]. fold key in Hother. rewrite Hother. intros [].
  - intros any. rewrite Hcount. unfold get_stats. cbn [total_uploads].
    apply map_subseteq_size, map_filter_subseteq.
  - rewrite Hcount, Hup, (map_filter_insert_True _ _ _ _ Hown).
    pose proof (map_size_ne_0_lookup_2 (<[key := record]> (filter (P file_path) (uploads (_data t)))) key
                  ltac:(rewrite lookup_insert_eq; eauto)). lia.
Qed.

(** X3: the per-file counts of [get_stats] add up to [total_uploads]. *)
Theorem get_stats_files_total (t : UploadTracker) :
  sum_counts (files (get_stats t)) = total_uploads (get_stats t).
Proof.
  unfold get_stats. cbn [files total_uploads].
  apply (map_fold_weak_ind (fun acc m => sum_counts acc = size m)).
  - reflexivity.
  - intros k record m acc Hk IH. rewrite sum_counts_bump, IH.
    symmetry. apply map_size_insert_None. exact Hk.
Qed.

Lemma slice_from_nonneg {A} (a : Z) (l : list A) :
  0 <= a -> slice_from a l = drop (Z.to_nat a) l.
Proof.
  intros Ha. unfold slice_from.
  replace (a <? 0) with false by (symmetry; apply Z.ltb_ge; exact Ha).
  destruct (Z.le_gt_cases a (Z.of_nat (length l))) as [Hle | Hgt].
  - rewrite Z.min_l by exact Hle. reflexivity.
  - rewrite Z.min_r by lia. rewrite Nat2Z.id.
    rewrite !drop_ge; [reflexivity | lia | lia].
Qed.

Lemma slice_from_neg {A} (a : Z) (l : list A) :
  a < 0 -> slice_from a l = drop (length l - Z.to_nat (- a)) l.
Proof.
  intros Ha. unfold slice_from.
  replace (a <? 0) with true by (symmetry; apply Z.ltb_lt; exact Ha).
  f_equal. lia.
Qed.

(** X4: [get_upload_history(limit)] returns, most recent first, the last
    [limit] entries of the history (all of them when there are fewer) for a
    positive [limit]; the whole history for [limit = 0]; and the history
    without its first [-limit] entries for a negative [limit]. Right after
    [mark_uploaded], [get_upload_history(1)] is the audit entry of that
    call. *)
Theorem get_upload_history_limit (E : Env) (limit : Z) (t : UploadTracker)
    (file_path : string) (idx : Z) (row_data : gmap string string)
    (shipment_id : string) (response_data : option (gmap string string)) (s : St) :
  match limit ?= 0 with
  | Gt => get_upload_history limit t = take (Z.to_nat limit) (rev (history (_data t)))
          /\ length (get_upload_history limit t)
             = Nat.min (Z.to_nat limit) (length (history (_data t)))
  | Eq => get_upload_history limit t = rev (history (_data t))
  | Lt => get_upload_history limit t = rev (drop (Z.to_nat (- limit)) (history (_data t)))
  end
  /\ exists entry,
       get_upload_history 1
         (tracker (snd (mark_uploaded E file_path idx row_data shipment_id
                          response_data s))) = [entry]
       /\ h_key entry = _generate_row_key E file_path idx row_data
       /\ h_action entry = "upload" /\ h_shipment_id entry = shipment_id.
Proof.
  split.
  - unfold get_upload_history. destruct (Z.compare_spec limit 0) as [-> | Hlt | Hgt].
    + rewrite slice_from_nonneg by lia. reflexivity.
    + rewrite slice_from_nonneg by lia. reflexivity.
    + rewrite slice_from_neg by lia.
      replace (Z.to_nat (- - limit)) with (Z.to_nat limit) by lia.
      assert (Heq : rev (drop (length (history (_data t)) - Z.to_nat limit)
                           (history (_data t)))
                    = take (Z.to_nat limit) (rev (history (_data t)))).
      { symmetry. apply firstn_rev. }
      rewrite Heq. split; [reflexivity|].
      rewrite length_take, length_rev. reflexivity.
  - assert (Hdata : _data (tracker (snd (mark_uploaded E file_path idx row_data
                                           shipment_id response_data s)))
                    = marked_data E file_path idx row_data shipment_id response_data s).
    { rewrite mark_uploaded_run. destruct (io E _); reflexivity. }
    unfold get_upload_history. rewrite Hdata. unfold marked_data. cbn [history].
    rewrite slice_from_neg by lia. rewrite length_app. cbn [length].
    match goal with |- context [drop ?k (?h ++ ?e)] =>
      replace k with (length h) by (cbn; lia) end.
    rewrite drop_app_length. cbn [rev app].
    eexists. split; [reflexivity|]. repeat split.
Qed.

(** ** Which exceptions come out *)

Section RaisesOnly.
Context (Q : Exc -> Prop).

Lemma raises_only_ret {A} (a : A) : raises_only Q (ret a).
Proof. intros s. exact I. Qed.

Lemma raises_only_raise {A} (e : Exc) : Q e -> raises_only Q (@raise A e).
Proof. intros He s. exact He. Qed.

Lemma raises_only_modify (f : St -> St) : raises_only Q (modify f).
Proof. intros s. exact I. Qed.

Lemma raises_only_bind {A B} (c : M A) (k : A -> M B) :
  raises_only Q c -> (forall a, raises_only Q (k a)) -> raises_only Q (bind c k).
Proof.
  intros Hc Hk s. unfold bind. specialize (Hc s).
  destruct (c s) as [[a|e] s1]; cbn [fst] in *; [apply Hk | exact Hc].
Qed.

Lemma raises_only_get_bind {B} (k : St -> M B) :
  (forall s0, raises_only Q (k s0)) -> raises_only Q (bind get k).
Proof. intros Hk s. unfold bind, get. apply Hk. Qed.

Lemma raises_only_try {A} (body : M A) (handler : string -> M A) :
  raises_only (fun e => is_client_error e \/ Q e) body ->
  (forall m, raises_only Q (handler m)) ->
  raises_only Q (try_except_GLSClientError body handler).
Proof.
  intros Hb Hh s. unfold try_except_GLSClientError. specialize (Hb s).
  destruct (body s) as [[a|e] s1]; cbn [fst] in *; [exact I|].
  destruct e; try (destruct Hb as [[] | Hq]; exact Hq).
  apply Hh.
Qed.

Lemma raises_only_for_each {A} (xs : list A) (body : A -> M unit) :
  (forall x, raises_only Q (body x)) -> raises_only Q (for_each xs body).
Proof.
  intros Hb. induction xs as [|x xs IH]; cbn [for_each].
  - apply raises_only_ret.
  - apply raises_only_bind; [apply Hb | intros _; exact IH].
Qed.

Lemma raises_only_for_enumerate {A} (i : nat) (xs : list A) (body : nat -> A -> M unit) :
  (forall j x, raises_only Q (body j x)) -> raises_only Q (for_enumerate i xs body).
Proof.
  intros Hb. revert i. induction xs as [|x xs IH]; intros i; cbn [for_enumerate].
  - apply raises_only_ret.
  - apply raises_only_bind; [apply Hb | intros _; apply IH].
Qed.

End RaisesOnly.

Lemma raises_only_weaken {A} (Q Q' : Exc -> Prop) (c : M A) :
  (forall e, Q e -> Q' e) -> raises_only Q c -> raises_only Q' c.
Proof.
  intros Himp Hc s. specialize (Hc s). destruct (fst (c s)); [exact I | auto].
Qed.

Section ClientRaises.
Context (E : Env) (cfg : Config) (credentials : GLSCredentials).

Lemma _get_client_raises : raises_only is_client_error (_get_client E).
Proof.
  unfold _get_client. apply raises_only_get_bind. intros s0.
  destruct (client_open s0); [apply raises_only_ret|].
  apply raises_only_bind; [apply raises_only_modify|]. intros _.
  destruct (connect E (trace s0)); [apply raises_only_raise; exact I|].
  apply raises_only_modify.
Qed.

Lemma retry_loop_raises (op : Operation) (attempts : list nat) (last : option string) :
  raises_only is_client_error (retry_loop E cfg op attempts last).
Proof.
  revert last. induction attempts as [|k rest IH]; intros last; cbn [retry_loop].
  - apply raises_only_raise. exact I.
  - apply raises_only_bind.
    + unfold call. apply raises_only_get_bind. intros s0.
      apply raises_only_bind; [apply raises_only_modify|]. intros _. apply raises_only_ret.
    + intros [xml | e | e | e].
      * apply raises_only_ret.
      * apply raises_only_bind; [|intros _; apply IH].
        destruct (_ <? _)%nat; [apply raises_only_modify | apply raises_only_ret].
      * apply raises_only_bind; [|intros _; apply IH].
        destruct (_ <? _)%nat; [apply raises_only_modify | apply raises_only_ret].
      * apply raises_only_raise. exact I.
Qed.

Lemma _execute_with_retry_raises (op : Operation) :
  raises_only is_client_error (_execute_with_retry E cfg op).
Proof.
  unfold _execute_with_retry. apply raises_only_bind; [apply _get_client_raises|].
  intros _. apply retry_loop_raises.
Qed.

Lemma add_parcels_raises (batch : list GLSParcel) (pdf : bool) :
  raises_only is_client_error (add_parcels E cfg credentials batch pdf).
Proof.
  unfold add_parcels. destruct (_ <? _)%nat; [apply raises_only_raise; exact I|].
  destruct batch; [apply raises_only_ret|].
  apply raises_only_bind; [apply _execute_with_retry_raises|].
  intros xml. apply raises_only_ret.
Qed.


End ClientRaises.



(** X6: [test_connection] and [test_credentials] never raise and leave the
    ledger alone. [test_connection] is true exactly when the [ListSped]
    call, with empty dates, is answered within the retry policy, whatever
    the answer contains, even a document that is not well-formed; and
    [test_credentials] returns [(True, "Connessione riuscita")] in that case
    and [(False, "Connessione fallita")] otherwise, so the text of the
    [GLSClientError] is never part of its message. *)
Theorem test_credentials_outcomes (E : Env) (cfg : Config) (credentials : GLSCredentials)
    (s : St) :
  let ok := answered E cfg (ListSped credentials "" "") s in
  let s' := snd (_execute_with_retry E cfg (ListSped credentials "" "") s) in
  test_connection E cfg credentials s = (Ok ok, s')
  /\ test_credentials E cfg credentials s
     = (Ok (ok, if ok then "Connessione riuscita" else "Connessione fallita"), s')
  /\ same_ledger s s'.
Proof.
  intros ok s'. subst ok s'. unfold answered.
  pose proof (_execute_with_retry_raises E cfg (ListSped credentials "" "") s) as Hraise.
  destruct (execute_with_retry_spec E cfg (ListSped credentials "" "") s)
    as (c & r & s1 & Hrun & _ & _ & _ & Hsame & _).
  assert (Hconn : test_connection E cfg credentials s
                  = (Ok (match r with Ok _ => true | Raise _ => false end), s1)).
  { unfold test_connection, try_except_GLSClientError, list_shipments, bind.
    rewrite Hrun in *. cbn [fst] in Hraise.
    destruct r as [xml|e]; [reflexivity|]. destruct e; try contradiction. reflexivity. }
  rewrite Hrun. cbn [fst snd]. split; [exact Hconn|]. split; [|exact Hsame].
  unfold test_credentials, try_except_GLSClientError, bind. rewrite Hconn.
  destruct r; reflexivity.
Qed.

(** ** The first loop of [process_file], for either value of the flag *)

Section PrepareGen.
Context (E : Env) (skip_uploaded : bool) (file_path : string) (colli : Z) (peso : Q).

Lemma sent_lengths (t : UploadTracker) (df : list (Z * gmap string string)) :
  length (sent_parcels E skip_uploaded file_path t colli peso df)
  = length (sent_rows E skip_uploaded file_path t colli peso df).
Proof.
  unfold sent_parcels, sent_rows, sendable.
  induction (to_send E skip_uploaded file_path t df) as [|row rows IH]; [reflexivity|].
  cbn [omap list_omap List.filter].
  destruct (_create_parcel row.2 colli peso) as [p|].
  - rewrite bool_decide_eq_true_2 by eauto. cbn [length]. f_equal. exact IH.
  - rewrite bool_decide_eq_false_2 by (intros [? ?]; discriminate). exact IH.
Qed.

Lemma prepare_spec_gen (df : list (Z * gmap string string))
    (parcels_to_upload : list GLSParcel) (row_indices : list (Z * gmap string string))
    (s : St) :
  exists s',
    prepare E skip_uploaded file_path colli peso df parcels_to_upload row_indices s
    = (Ok (parcels_to_upload
             ++ sent_parcels E skip_uploaded file_path (tracker s) colli peso df,
           row_indices ++ sent_rows E skip_uploaded file_path (tracker s) colli peso df),
       s')
    /\ trace s' = trace s /\ disk s' = disk s /\ tracker s' = tracker s
    /\ client_open s' = client_open s
    /\ total (result s') = total (result s)
    /\ uploaded (result s') = uploaded (result s)
    /\ responses (result s') = responses (result s)
    /\ skipped (result s')
       = (skipped (result s)
          + length (List.filter (skips E skip_uploaded file_path (tracker s)) df))%nat
    /\ (failed (result s')
        + length (sent_rows E skip_uploaded file_path (tracker s) colli peso df)
        = failed (result s)
          + length (to_send E skip_uploaded file_path (tracker s) df))%nat
    /\ exists more,
         errors (result s') = errors (result s) ++ more
         /\ (forall row, row ∈ to_send E skip_uploaded file_path (tracker s) df ->
               sendable colli peso row = false -> insufficient_line row ∈ more).
Proof.
  revert parcels_to_upload row_indices s.
  induction df as [|[idx row_data] rest IH]; intros pa ri s.
  - exists s. cbn. rewrite !app_nil_r. repeat split; try lia.
    exists []. rewrite app_nil_r. split; [reflexivity|].
    intros row Hin. inversion Hin.
  - cbn [prepare]. unfold bind at 1, get at 1.
    unfold sent_parcels, sent_rows, to_send. cbn [List.filter].
    change (skips E skip_uploaded file_path (tracker s) (idx, row_data))
      with (skip_uploaded && is_uploaded E file_path idx row_data (tracker s)).
    destruct (skip_uploaded && is_uploaded E file_path idx row_data (tracker s)) eqn:Hskip;
      cbn [negb].
    + unfold bind at 1. msimpl.
      match goal with |- context [prepare _ _ _ _ _ _ _ _ ?s1] =>
        destruct (IH pa ri s1)
          as (s' & Hrun & Htr & Hd & Ht & Hc & Htot & Hu & Hr & Hs & Hf & more & He & Hin)
      end.
      cbn [trace disk tracker client_open result add_skip total uploaded responses
           skipped failed errors] in *.
      exists s'. split; [exact Hrun|].
      unfold sent_rows, to_send in *. cbn [length].
      repeat (split; [first [assumption | lia]|]).
      assert (Htruthy : PyStr.truthy ("Riga " +:+ PyStr.of_int idx +:+ " già caricata") = true)
        by reflexivity.
      rewrite Htruthy in He.
      eexists. split; [rewrite He, <- app_assoc; reflexivity|].
      intros row Hrow Hno. apply elem_of_app. right. apply Hin; assumption.
    + destruct (_create_parcel row_data colli peso) as [parcel|] eqn:Hcreate.
      * destruct (IH (pa ++ [parcel]) (ri ++ [(idx, row_data)]) s)
          as (s' & Hrun & Htr & Hd & Ht & Hc & Htot & Hu & Hr & Hs & Hf & more & He & Hin).
        assert (Hsend : sendable colli peso (idx, row_data) = true).
        { unfold sendable. cbn [snd]. rewrite Hcreate. apply bool_decide_eq_true_2. eauto. }
        exists s'. cbn [omap list_omap List.filter fst snd]. rewrite Hcreate, !Hsend.
        split; [rewrite Hrun, <- !app_assoc; reflexivity|].
        unfold sent_rows, sent_parcels, to_send in *. cbn [length].
        repeat (split; [first [assumption | lia]|]).
        exists more. split; [exact He|].
        intros row Hrow Hno. apply list_elem_of_In in Hrow.
        destruct Hrow as [<- | Hrow].
        -- unfold sendable in Hno. cbn [snd] in Hno. rewrite Hcreate in Hno.
           apply bool_decide_eq_false in Hno. exfalso. apply Hno. eauto.
        -- apply Hin; [apply list_elem_of_In; exact Hrow | exact Hno].
      * unfold bind at 1. msimpl.
        match goal with |- context [prepare _ _ _ _ _ _ _ _ ?s1] =>
          destruct (IH pa ri s1)
            as (s' & Hrun & Htr & Hd & Ht & Hc & Htot & Hu & Hr & Hs & Hf & more & He & Hin)
        end.
        cbn [trace disk tracker client_open result add_failure total uploaded responses
             skipped failed errors] in *.
        assert (Hsend : sendable colli peso (idx, row_data) = false).
        { unfold sendable. cbn [snd]. rewrite Hcreate. apply bool_decide_eq_false_2.
          intros [? ?]; discriminate. }
        exists s'. cbn [omap list_omap List.filter fst snd]. rewrite Hcreate, !Hsend.
        split; [exact Hrun|].
        unfold sent_rows, sent_parcels, to_send in *. cbn [length].
        repeat (split; [first [assumption | lia]|]).
        rewrite of_int_truthy in He.
        eexists. split; [rewrite He, <- app_assoc; reflexivity|].
        intros row Hrow Hno. apply list_elem_of_In in Hrow.
        destruct Hrow as [<- | Hrow].
        -- apply elem_of_app. left. apply list_elem_of_In. left. reflexivity.
        -- apply elem_of_app. right.
           apply Hin; [apply list_elem_of_In; exact Hrow | exact Hno].
Qed.

End PrepareGen.

(** ** Rounds of [_upload_batches]: exceptions and counts *)

Lemma filter_partition_length {A} (f : A -> bool) (l : list A) :
  (length (List.filter f l) + length (List.filter (fun x => negb (f x)) l))%nat = length l.
Proof.
  induction l as [|x l IH]; [reflexivity|]. cbn [List.filter].
  destruct (f x); cbn [negb length]; lia.
Qed.

Lemma slice_length_eq {A B} (a b : nat) (l : list A) (l' : list B) :
  length l = length l' -> length (slice a b l) = length (slice a b l').
Proof. intros H. unfold slice. rewrite !length_take, !length_drop, H. reflexivity. Qed.

Lemma same_counts_refl (s : St) : same_counts s s.
Proof. repeat split. Qed.

Lemma same_counts_trans (s1 s2 s3 : St) :
  same_counts s1 s2 -> same_counts s2 s3 -> same_counts s1 s3.
Proof.
  unfold same_counts. intros (? & ? & ? & ? & ?) (? & ? & ? & ? & ?).
  repeat split; congruence.
Qed.

Section RoundFacts.
Context (E : Env) (cfg : Config) (credentials : GLSCredentials).
Context (file_path : string) (generate_pdf : bool).

Lemma add_parcels_ok_responses (batch : list GLSParcel) (s s1 : St)
    (rs : list GLSResponse) :
  add_parcels E cfg credentials batch generate_pdf s = (Ok rs, s1) ->
  (batch = [] /\ rs = []) \/ exists xml, rs = _parse_add_parcel_response E xml batch.
Proof.
  unfold add_parcels. destruct (_ <? _)%nat; [discriminate|].
  destruct batch as [|p batch].
  - intros H. injection H as <- _. left. split; reflexivity.
  - unfold bind. destruct (_execute_with_retry E cfg _ s) as [[xml|e] s2]; [|discriminate].
    intros H. injection H as <- _. right. exists xml. reflexivity.
Qed.

Lemma mark_uploaded_raises (idx : Z) (row_data : gmap string string)
    (shipment_id : string) (response_data : option (gmap string string)) :
  raises_only (abort_cause E cfg)
    (mark_uploaded E file_path idx row_data shipment_id response_data).
Proof.
  intros s. rewrite mark_uploaded_run.
  destruct (io E _) eqn:Hio; cbn [fst]; try exact I;
    eexists; rewrite Hio; discriminate.
Qed.

Lemma mark_uploaded_result (idx : Z) (row_data : gmap string string)
    (shipment_id : string) (response_data : option (gmap string string)) (s : St) :
  result (snd (mark_uploaded E file_path idx row_data shipment_id response_data s))
  = result s.
Proof. rewrite mark_uploaded_run. destruct (io E _); reflexivity. Qed.

Lemma upload_batch_raises (parcels : list GLSParcel)
    (row_indices : list (Z * gmap string string)) (batch_start : nat) :
  length parcels = length row_indices ->
  raises_only (abort_cause E cfg)
    (upload_batch E cfg credentials parcels row_indices file_path generate_pdf batch_start).
Proof.
  intros Hlen s. unfold upload_batch, try_except_GLSClientError, bind.
  set (batch_end := Nat.min (batch_start + GLS_MAX_PARCELS_PER_BATCH cfg) (length parcels)).
  set (batch := slice batch_start batch_end parcels).
  set (batch_indices := slice batch_start batch_end row_indices).
  pose proof (add_parcels_raises E cfg credentials batch generate_pdf s) as Hadd.
  destruct (add_parcels E cfg credentials batch generate_pdf s) as [[rs|e] s1] eqn:Hrun;
    cbn [fst] in Hadd.
  - destruct (reconcile_loop_spec E file_path batch_indices rs 0 s1 ltac:(lia))
      as (r & s' & Hloop & Hr).
    rewrite Hloop. destruct r as [[]|e]; cbn [fst]; [exact I|].
    destruct e; try exact Hr; try contradiction.
    destruct Hr as [Hlt _]. cbn [Nat.add] in Hlt.
    destruct (add_parcels_ok_responses batch s s1 rs Hrun) as [[_ ->] | [xml ->]].
    + cbn in Hlt. lia.
    + exists xml, batch. subst batch batch_indices.
      rewrite (slice_length_eq _ _ parcels row_indices Hlen). exact Hlt.
  - destruct e; try contradiction.
    destruct (fail_group_spec msg batch_indices s1) as (s' & Hfail & _).
    rewrite Hfail. exact I.
Qed.

Lemma upload_batch_counted (parcels : list GLSParcel)
    (row_indices : list (Z * gmap string string)) (batch_start : nat) (s s' : St) :
  (forall xml batch, length (_parse_add_parcel_response E xml batch) = length batch) ->
  length parcels = length row_indices ->
  upload_batch E cfg credentials parcels row_indices file_path generate_pdf batch_start s
  = (Ok tt, s') ->
  counted (result s')
  = (counted (result s)
     + length (slice batch_start
                 (Nat.min (batch_start + GLS_MAX_PARCELS_PER_BATCH cfg) (length parcels))
                 row_indices))%nat.
Proof.
  intros Hwc Hlen. unfold upload_batch, try_except_GLSClientError, bind.
  set (batch_end := Nat.min (batch_start + GLS_MAX_PARCELS_PER_BATCH cfg) (length parcels)).
  set (batch := slice batch_start batch_end parcels).
  set (batch_indices := slice batch_start batch_end row_indices).
  pose proof (add_parcels_raises E cfg credentials batch generate_pdf s) as Hadd.
  pose proof (add_parcels_same_ledger E cfg credentials batch generate_pdf s) as Hsame.
  destruct (add_parcels E cfg credentials batch generate_pdf s) as [[rs|e] s1] eqn:Hrun;
    cbn [fst snd] in Hadd, Hsame; destruct Hsame as (_ & _ & Hres).
  - destruct (reconcile_loop_spec E file_path batch_indices rs 0 s1 ltac:(lia))
      as (r & s2 & Hloop & Hr).
    rewrite Hloop. destruct r as [[]|e];
      [|destruct e; try discriminate; contradiction].
    intros Hok. injection Hok as <-. destruct Hr as [Hle Hcount].
    rewrite Hcount, Hres. f_equal.
    destruct (add_parcels_ok_responses batch s s1 rs Hrun) as [[Hb ->] | [xml ->]].
    + subst batch_indices. rewrite <- (slice_length_eq _ _ parcels row_indices Hlen).
      fold batch. rewrite Hb. reflexivity.
    + rewrite Hwc. subst batch batch_indices. apply slice_length_eq. exact Hlen.
  - destruct e; try contradiction.
    destruct (fail_group_spec msg batch_indices s1)
      as (s2 & Hfail & _ & _ & _ & _ & Hf & Hu & _).
    rewrite Hfail. intros Hok. injection Hok as <-.
    unfold counted. rewrite Hf, Hu, Hres. lia.
Qed.

Lemma upload_rounds_counted (parcels : list GLSParcel)
    (row_indices : list (Z * gmap string string)) (starts : list nat) (s s' : St) :
  (forall xml batch, length (_parse_add_parcel_response E xml batch) = length batch) ->
  length parcels = length row_indices ->
  for_each starts
    (upload_batch E cfg credentials parcels row_indices file_path generate_pdf) s
  = (Ok tt, s') ->
  counted (result s')
  = (counted (result s)
     + length (concat (List.map
         (fun bs => slice bs
                      (Nat.min (bs + GLS_MAX_PARCELS_PER_BATCH cfg) (length parcels))
                      row_indices) starts)))%nat.
Proof.
  intros Hwc Hlen. revert s. induction starts as [|bs rest IH]; intros s.
  - cbn. intros H. injection H as <-. lia.
  - cbn [for_each List.map concat]. unfold bind at 1.
    destruct (upload_batch E cfg credentials parcels row_indices file_path generate_pdf bs s)
      as [[[]|e] s1] eqn:Hround; [|discriminate].
    intros Hrest. rewrite (IH s1 Hrest).
    rewrite (upload_batch_counted parcels row_indices bs s s1 Hwc Hlen Hround).
    rewrite length_app. lia.
Qed.

(** The closing of the work day in [upload_and_close]. *)
Lemma close_step_same_counts (s : St) :
  same_counts s
    (snd (try_except_GLSClientError
            (close_result <- close_work_day E cfg credentials ;;
             if negb (cw_success close_result)
             then modify (set_result
                    (append_error ("CloseWorkDay: " +:+ cw_error close_result)))
             else ret tt)
            (fun e => modify (set_result (append_error ("CloseWorkDay fallito: " +:+ e))))
            s))
  /\ exists r,
       fst (try_except_GLSClientError
            (close_result <- close_work_day E cfg credentials ;;
             if negb (cw_success close_result)
             then modify (set_result
                    (append_error ("CloseWorkDay: " +:+ cw_error close_result)))
             else ret tt)
            (fun e => modify (set_result (append_error ("CloseWorkDay fallito: " +:+ e))))
            s) = Ok r.
Proof.
  unfold try_except_GLSClientError, close_work_day, bind.
  pose proof (_execute_with_retry_raises E cfg (CloseWorkDay credentials) s) as Hraise.
  destruct (execute_with_retry_spec E cfg (CloseWorkDay credentials) s)
    as (c & r & s1 & Hrun & _ & _ & _ & (_ & _ & Hres) & _).
  rewrite Hrun in *. cbn [fst] in Hraise.
  destruct r as [xml|e]; cbn [ret].
  - destruct (negb _); cbn; (split; [|eexists; reflexivity]);
      unfold same_counts; cbn; rewrite Hres; repeat split.
  - destruct e; try contradiction. cbn. split; [|eexists; reflexivity].
    unfold same_counts; cbn; rewrite Hres; repeat split.
Qed.

End RoundFacts.

(** ** A run of [process_file], for either value of the flag *)

Section ResponsesKept.
Context (E : Env) (cfg : Config) (credentials : GLSCredentials).

Lemma kept_same_result {A} (c : M A) :
  (forall s, result (snd (c s)) = result s) -> preserves responses_are_uploads c.
Proof.
  intros Hc s Hs. unfold responses_are_uploads in *. rewrite Hc.
  destruct (fst (c s)) as [|[]]; auto.
Qed.

Lemma kept_set_result (f : GLSUploadResult -> GLSUploadResult) :
  (forall r, responses (f r) = responses r /\ uploaded (f r) = uploaded r) ->
  preserves responses_are_uploads (modify (set_result f)).
Proof.
  intros Hf. apply preserves_modify. intros s [Hlen Hall].
  unfold responses_are_uploads. cbn [result set_result].
  destruct (Hf (result s)) as [-> ->]. split; assumption.
Qed.

Lemma kept_add_parcels (batch : list GLSParcel) (pdf : bool) :
  preserves responses_are_uploads (add_parcels E cfg credentials batch pdf).
Proof.
  apply kept_same_result. intros s.
  apply (add_parcels_same_ledger E cfg credentials batch pdf s).
Qed.

Lemma kept_reconcile (file_path : string)
    (batch_indices : list (Z * gmap string string)) (i : nat) (response : GLSResponse) :
  preserves responses_are_uploads (reconcile E file_path batch_indices i response).
Proof.
  unfold reconcile. destruct (batch_indices !! i) as [[idx row_data]|];
    [|apply preserves_raise].
  destruct (is_success response) eqn:Hok.
  - apply preserves_bind.
    + apply preserves_modify. intros s [Hlen Hall].
      unfold responses_are_uploads. cbn [result set_result add_success responses uploaded].
      split; [rewrite length_app, Hlen; cbn; lia|].
      apply Forall_app. split; [exact Hall | repeat constructor; exact Hok].
    + intros _. apply kept_same_result. intros s. apply mark_uploaded_result.
  - apply kept_set_result. intros r. split; reflexivity.
Qed.

Lemma kept_upload_and_close (file_path : string) (generate_pdf close_workday : bool)
    (parcels_to_upload : list GLSParcel) (row_indices : list (Z * gmap string string)) :
  preserves responses_are_uploads
    (upload_and_close E cfg credentials file_path generate_pdf close_workday
       parcels_to_upload row_indices).
Proof.
  unfold upload_and_close. apply preserves_bind.
  - destruct parcels_to_upload; [apply preserves_ret|].
    unfold _upload_batches. destruct (_ =? _)%nat; [apply preserves_raise|].
    apply preserves_for_each. intros bs. unfold upload_batch. apply preserves_try.
    + apply preserves_bind; [apply kept_add_parcels|].
      intros rs. apply preserves_for_enumerate. intros j x. apply kept_reconcile.
    + intros m. apply preserves_for_each. intros [idx row_data].
      apply kept_set_result. intros r. split; reflexivity.
  - intros _. apply preserves_get_bind. intros s Hs.
    destruct (close_workday && _); [|exact Hs].
    destruct (close_step_same_counts E cfg credentials s) as [(Hu & _ & _ & _ & Hr) [r Hok]].
    rewrite Hok. unfold responses_are_uploads in *. rewrite Hu, Hr. exact Hs.
Qed.

End ResponsesKept.

Section RunGen.
Context (E : Env) (cfg : Config) (credentials : GLSCredentials).
Context (skip_uploaded : bool) (file_path : string) (colli : Z) (peso : Q).
Context (generate_pdf close_workday : bool).

Lemma upload_and_close_raises (parcels_to_upload : list GLSParcel)
    (row_indices : list (Z * gmap string string)) :
  length parcels_to_upload = length row_indices ->
  raises_only (abort_cause E cfg)
    (upload_and_close E cfg credentials file_path generate_pdf close_workday
       parcels_to_upload row_indices).
Proof.
  intros Hlen. unfold upload_and_close. apply raises_only_bind.
  - destruct parcels_to_upload as [|p pa]; [apply raises_only_ret|].
    unfold _upload_batches.
    destruct (Nat.eqb_spec (GLS_MAX_PARCELS_PER_BATCH cfg) 0) as [H0|_].
    + apply raises_only_raise. exact H0.
    + apply raises_only_for_each. intros bs. apply upload_batch_raises. exact Hlen.
  - intros _. apply raises_only_get_bind. intros s0.
    destruct (close_workday && _); [|apply raises_only_ret].
    intros s. destruct (close_step_same_counts E cfg credentials s) as [_ [r Hok]].
    rewrite Hok. exact I.
Qed.

Lemma upload_and_close_counted (parcels_to_upload : list GLSParcel)
    (row_indices : list (Z * gmap string string)) (s s' : St) :
  (0 < GLS_MAX_PARCELS_PER_BATCH cfg)%nat ->
  (forall xml batch, length (_parse_add_parcel_response E xml batch) = length batch) ->
  length parcels_to_upload = length row_indices ->
  upload_and_close E cfg credentials file_path generate_pdf close_workday
    parcels_to_upload row_indices s = (Ok tt, s') ->
  counted (result s') = (counted (result s) + length row_indices)%nat.
Proof.
  intros Hmax Hwc Hlen. unfold upload_and_close. unfold bind at 1.
  destruct (match parcels_to_upload with
            | [] => ret tt
            | _ :: _ => _upload_batches E cfg credentials parcels_to_upload row_indices
                          file_path generate_pdf
            end s) as [[[]|e] s1] eqn:Hup; [|discriminate].
  assert (Hcount1 : counted (result s1) = (counted (result s) + length row_indices)%nat).
  { destruct parcels_to_upload as [|p pa].
    - injection Hup as <-. destruct row_indices; [cbn [length]; lia | discriminate Hlen].
    - unfold _upload_batches in Hup.
      destruct (Nat.eqb_spec (GLS_MAX_PARCELS_PER_BATCH cfg) 0) as [H0|_]; [lia|].
      rewrite (upload_rounds_counted E cfg credentials file_path generate_pdf
                 (p :: pa) row_indices _ s s1 Hwc Hlen Hup).
      rewrite Hlen, concat_slices by exact Hmax. reflexivity. }
  unfold bind at 1, get. cbn beta iota.
  destruct (close_workday && _).
  - destruct (close_step_same_counts E cfg credentials s1) as [(Hu & Hf & _) _].
    intros Hrun. rewrite <- Hcount1.
    match type of Hrun with ?c = _ => assert (Hs : s' = snd c) by (rewrite Hrun; reflexivity) end.
    rewrite Hs. unfold counted. rewrite Hu, Hf. reflexivity.
  - intros Hrun. injection Hrun as <-. exact Hcount1.
Qed.

(** A run of [process_file], whatever the flag and the state of the
    processor. *)
Lemma process_file_gen (df : list (Z * gmap string string)) (y : Sys) :
  let t0 := _get_tracker E file_path y in
  let run := process_file E cfg credentials skip_uploaded file_path colli peso
               generate_pdf close_workday df y in
  (exists evs,
     sys_trace (snd run) = sys_trace y ++ evs
     /\ Forall (fun b => b ∈ batches cfg
                  (sent_parcels E skip_uploaded file_path t0 colli peso df))
               (submitted evs))
  /\ match fst run with
     | Raise e => abort_cause E cfg e
     | Ok res =>
         total res = length df
         /\ skipped res = length (List.filter (skips E skip_uploaded file_path t0) df)
         /\ length (responses res) = uploaded res
         /\ Forall (fun r => is_success r = true) (responses res)
         /\ (forall row, row ∈ to_send E skip_uploaded file_path t0 df ->
               sendable colli peso row = false -> insufficient_line row ∈ errors res)
         /\ ((0 < GLS_MAX_PARCELS_PER_BATCH cfg)%nat ->
             (forall xml batch,
                length (_parse_add_parcel_response E xml batch) = length batch) ->
             (uploaded res + skipped res + failed res)%nat = total res)
     end.
Proof.
  intros t0 run. subst run. unfold process_file. fold t0.
  set (s00 := {| trace := sys_trace y; disk := sys_disk y;
                 client_open := sys_client_open y; tracker := t0;
                 result := empty_result |}).
  set (s0 := set_result (set_total (length df)) s00).
  destruct (prepare_spec_gen E skip_uploaded file_path colli peso df [] [] s0)
    as (s1 & Hprep & Htr1 & Hd1 & Ht1 & Hc1 & Htot1 & Hu1 & Hr1 & Hs1 & Hf1
        & more & He1 & Hin1).
  cbn [app] in Hprep. change (tracker s0) with t0 in *.
  assert (Hrows : process_rows E cfg credentials skip_uploaded file_path colli peso
                    generate_pdf close_workday df s00
                  = upload_and_close E cfg credentials file_path generate_pdf close_workday
                      (sent_parcels E skip_uploaded file_path t0 colli peso df)
                      (sent_rows E skip_uploaded file_path t0 colli peso df) s1).
  { unfold process_rows, bind at 1 2, modify. fold s0. rewrite Hprep. reflexivity. }
  rewrite Hrows.
  set (pa := sent_parcels E skip_uploaded file_path t0 colli peso df) in *.
  set (ri := sent_rows E skip_uploaded file_path t0 colli peso df) in *.
  assert (Hlen : length pa = length ri) by apply sent_lengths.
  pose proof (after_prepare_step E cfg credentials file_path generate_pdf close_workday
                (fun _ => True) (fun b => b ∈ batches cfg pa) pa ri
                (fun b H => H) (fun _ _ _ => I) s1)
    as ((evs & Htr & Hsub) & _ & _ & Htot & Hsk & (more2 & He2)).
  pose proof (upload_and_close_raises pa ri Hlen s1) as Hraise.
  pose proof (kept_upload_and_close E cfg credentials file_path generate_pdf close_workday
                pa ri s1) as Hkept.
  pose proof (upload_and_close_counted pa ri s1) as Hcounted.
  destruct (upload_and_close E cfg credentials file_path generate_pdf close_workday pa ri s1)
    as [r s'] eqn:Hrun.
  cbn [fst snd sys_trace] in *.
  split.
  - exists evs. split; [rewrite Htr, Htr1; reflexivity | exact Hsub].
  - destruct r as [[]|e]; [|exact Hraise].
    split; [rewrite Htot, Htot1; reflexivity|].
    split; [rewrite Hsk, Hs1; reflexivity|].
    assert (Hk : responses_are_uploads s').
    { apply Hkept. unfold responses_are_uploads. rewrite Hr1, Hu1. split; [reflexivity|constructor]. }
    destruct Hk as [Hk1 Hk2].
    split; [exact Hk1|]. split; [exact Hk2|]. split.
    + intros row Hrow Hno. rewrite He2, He1.
      apply elem_of_app. left. apply elem_of_app. right. apply Hin1; assumption.
    + intros Hmax Hwc.
      pose proof (Hcounted s' Hmax Hwc Hlen eq_refl) as Hc.
      unfold counted in Hc. rewrite Hu1 in Hc. rewrite Hsk, Hs1, Htot, Htot1.
      pose proof (filter_partition_length (skips E skip_uploaded file_path t0) df) as Hpart.
      fold (to_send E skip_uploaded file_path t0 df) in Hpart.
      fold ri in Hf1.
      change (uploaded (result s0)) with 0%nat in Hc.
      change (failed (result s0)) with 0%nat in Hf1.
      change (skipped (result s0)) with 0%nat.
      change (total (result s0)) with (length df).
      lia.
Qed.

End RunGen.

Lemma to_send_all (E : Env) (file_path : string) (t : UploadTracker)
    (df : list (Z * gmap string string)) :
  to_send E false file_path t df = df.
Proof.
  unfold to_send, skips. cbn [andb negb].
  induction df as [|row df IH]; [reflexivity|]. cbn [List.filter]. rewrite IH. reflexivity.
Qed.

Lemma skips_none (E : Env) (file_path : string) (t : UploadTracker)
    (df : list (Z * gmap string string)) :
  List.filter (skips E false file_path t) df = [].
Proof.
  unfold skips. cbn [andb]. induction df as [|row df IH]; [reflexivity | exact IH].
Qed.







(** X10. What the result of a run says, for either value of
    [skip_uploaded]: the rows skipped are the rows found in the ledger when
    the flag is set; the responses kept are successful ones, one per
    uploaded row; and every remaining row without company name or address
    is reported by its index as [Dati insufficienti]. *)
Theorem process_file_result_details (E : Env) (cfg : Config)
    (credentials : GLSCredentials)
    (skip_uploaded : bool) (file_path : string) (colli : Z) (peso : Q)
    (generate_pdf close_workday : bool)
    (df : list (Z * gmap string string)) (y : Sys) (res : GLSUploadResult) :
  fst (process_file E cfg credentials skip_uploaded file_path colli peso
         generate_pdf close_workday df y) = Ok res ->
  let t0 := _get_tracker E file_path y in
  skipped res = length (List.filter (skips E skip_uploaded file_path t0) df)
  /\ length (responses res) = uploaded res
  /\ Forall (fun r => is_success r = true) (responses res)
  /\ (forall row, row ∈ to_send E skip_uploaded file_path t0 df ->
        _create_parcel row.2 colli peso = None ->
        insufficient_line row ∈ errors res).
Proof.
  intros Hok t0.
  destruct (process_file_gen E cfg credentials skip_uploaded file_path colli peso
              generate_pdf close_workday df y) as [_ H].
  rewrite Hok in H. fold t0 in H. destruct H as (_ & Hsk & Hlen & Hall & Hins & _).
  split; [exact Hsk|]. split; [exact Hlen|]. split; [exact Hall|].
  intros row Hrow Hnone. apply Hins; [exact Hrow|].
  unfold sendable. rewrite Hnone. apply bool_decide_eq_false. intros [p Hp]. discriminate.
Qed.

(** The first batch of the scenario is accepted: two responses kept for
    two uploaded rows. *)
Lemma process_file_result_details_witness :
  exists res,
    fst (process_file env_scenario config_max_2 sample_credentials true
           "/data/ordini_VALIDATO.xlsx" 1 (3 # 1) false false three_rows
           (new_process ∅ [])) = Ok res
    /\ length (responses res) = uploaded res
    /\ uploaded res = 2%nat.
Proof.
  set (run := process_file env_scenario config_max_2 sample_credentials true
                "/data/ordini_VALIDATO.xlsx" 1 (3 # 1) false false three_rows
                (new_process ∅ [])).
  set (res := match fst run with Ok r => r | Raise _ => empty_result end).
  assert (Hres : fst run = Ok res) by (vm_compute; reflexivity).
  exists res. split; [exact Hres|].
  destruct (process_file_result_details env_scenario config_max_2 sample_credentials true
              "/data/ordini_VALIDATO.xlsx" 1 (3 # 1) false false three_rows
              (new_process ∅ []) res Hres) as (_ & Hlen & _).
  split; [exact Hlen|]. vm_compute. reflexivity.
Defined.

(** X11. With [skip_uploaded] off the ledger is not consulted: the groups
    submitted are batches of the parcels of all the rows of the file that
    have a company name and an address, also of rows already in the ledger,
    and the result reports no skipped row. *)
Theorem process_file_without_skip (E : Env) (cfg : Config) (credentials : GLSCredentials)
    (file_path : string) (colli : Z) (peso : Q) (generate_pdf close_workday : bool)
    (df : list (Z * gmap string string)) (y : Sys) :
  let run := process_file E cfg credentials false file_path colli peso
               generate_pdf close_workday df y in
  (exists evs,
     sys_trace (snd run) = sys_trace y ++ evs
     /\ Forall (fun b => b ∈ batches cfg
                  (omap (fun row : Z * gmap string string =>
                           _create_parcel row.2 colli peso) df))
               (submitted evs))
  /\ match fst run with
     | Ok res => skipped res = 0%nat
     | Raise _ => True
     end.
Proof.
  intros run. subst run.
  destruct (process_file_gen E cfg credentials false file_path colli peso
              generate_pdf close_workday df y) as [Htr H].
  unfold sent_parcels in Htr. rewrite to_send_all in Htr.
  split; [exact Htr|].
  destruct (fst (process_file E cfg credentials false file_path colli peso
                   generate_pdf close_workday df y)) as [res|e]; [|exact I].
  destruct H as (_ & Hsk & _). rewrite skips_none in Hsk. exact Hsk.
Qed.

Section CountPending.
Context (E : Env).




End CountPending.


(** ** Notes, parcels and the request document *)

Lemma get_str_insert_ne (row_data : gmap string string) (k k' v : string) :
  k <> k' -> get_str (<[k := v]> row_data) k' = get_str row_data k'.
Proof. intros Hne. unfold get_str. rewrite lookup_insert_ne by exact Hne. reflexivity. Qed.

Lemma or_truthy_left (a b b' : string) :
  PyStr.truthy a = true -> PyStr.or_ a b = PyStr.or_ a b'.
Proof. intros Ha. unfold PyStr.or_. rewrite Ha. reflexivity. Qed.

(** X13. The note of a row is at most 40 characters long, and the phone
    preference holds for the note and for the parcel alike: when the row
    has a mobile number, the landline number plays no part in either. *)
Theorem phone_preference (row_data : gmap string string) (colli : Z) (peso : Q)
    (landline : string) :
  (PyStr.len (_build_note row_data) <= 40)%nat
  /\ (PyStr.truthy (get_str row_data "telefono_cell") = true ->
      _build_note (<["telefono_fisso" := landline]> row_data) = _build_note row_data
      /\ _create_parcel (<["telefono_fisso" := landline]> row_data) colli peso
         = _create_parcel row_data colli peso).
Proof.
  split; [apply PyStrFacts.len_truncate|].
  intros Hcell.
  assert (Hother : forall k, k <> "telefono_fisso" ->
            get_str (<["telefono_fisso" := landline]> row_data) k = get_str row_data k).
  { intros k Hk. apply get_str_insert_ne. congruence. }
  assert (Hphone : PyStr.or_ (get_str (<["telefono_fisso" := landline]> row_data)
                                "telefono_cell")
                     (get_str (<["telefono_fisso" := landline]> row_data) "telefono_fisso")
                   = PyStr.or_ (get_str row_data "telefono_cell")
                       (get_str row_data "telefono_fisso")).
  { rewrite Hother by discriminate. apply or_truthy_left. exact Hcell. }
  assert (Hnote : _build_note (<["telefono_fisso" := landline]> row_data)
                  = _build_note row_data).
  { unfold _build_note. rewrite Hphone.
    rewrite (Hother "progressivo"), (Hother "indicazioni") by discriminate.
    reflexivity. }
  split; [exact Hnote|].
  unfold _create_parcel. rewrite Hnote, Hphone.
  rewrite (Hother "ragione_sociale"), (Hother "indirizzo"), (Hother "citta"),
    (Hother "cap"), (Hother "provincia"), (Hother "email"), (Hother "progressivo")
    by discriminate.
  reflexivity.
Qed.

Section RequestDocument.
Context (format_2f : Q -> string).

Lemma truthy_truncate (n : nat) (s : string) :
  PyStr.truthy s = true -> PyStr.truthy (truncate (S n) s) = true.
Proof.
  intros Hs. rewrite PyStrFacts.truncate_take. destruct s; [discriminate | reflexivity].
Qed.

Lemma truthy_zipcode (s : string) :
  PyStr.truthy (PyStr.take 5 (PyStr.zfill 5 (PyStr.strip s))) = true.
Proof.
  apply PyStrFacts.truthy_iff. intros Hempty.
  pose proof (PyStrFacts.len_take 5 (PyStr.zfill 5 (PyStr.strip s))) as Hlen.
  rewrite PyStrFacts.len_zfill, Hempty in Hlen. cbn [PyStr.len String.length] in Hlen. lia.
Qed.

Lemma field_present (p : GLSParcel) (k v : string) :
  (k, v) ∈ to_dict format_2f p -> PyStr.truthy v = true ->
  k ∈ field_tags (parcel_element format_2f p).
Proof.
  intros Hin Hv. unfold field_tags, parcel_element. cbn [children_of].
  rewrite List.map_map. apply list_elem_of_In, in_map_iff.
  exists (k, v). split; [reflexivity|].
  apply filter_In. split; [apply list_elem_of_In; exact Hin | exact Hv].
Qed.

Lemma field_absent (p : GLSParcel) (k : string) :
  (forall v, (k, v) ∈ to_dict format_2f p -> v = "") ->
  k ∉ field_tags (parcel_element format_2f p).
Proof.
  intros Hempty Hin. unfold field_tags, parcel_element in Hin. cbn [children_of] in Hin.
  rewrite List.map_map in Hin. apply list_elem_of_In, in_map_iff in Hin.
  destruct Hin as ([k' v] & Hk & Hin). cbn in Hk. subst k'.
  apply filter_In in Hin. destruct Hin as [Hin Hv].
  apply list_elem_of_In in Hin. rewrite (Hempty v Hin) in Hv. discriminate.
Qed.

Lemma fields_filled (p : GLSParcel) :
  Forall filled_leaf (children_of (parcel_element format_2f p)).
Proof.
  unfold parcel_element. cbn [children_of]. apply Forall_forall. intros c Hc.
  apply list_elem_of_In, in_map_iff in Hc. destruct Hc as ([k v] & <- & Hin).
  apply filter_In in Hin. destruct Hin as [_ Hv].
  exists v. split; [reflexivity|]. split; [apply PyStrFacts.truthy_iff; exact Hv | reflexivity].
Qed.

End RequestDocument.

(** X14. The request document: [Info] holds one [Parcel] element per
    parcel, in order, and every field in it is a leaf with a text that is
    not empty. For a parcel that [_create_parcel] builds from a row, the
    company name, the address, the postal code and the number of items are
    always there, and the cash-on-delivery and insured amounts never. *)
Theorem request_document_fields (format_2f : Q -> string)
    (row_data : gmap string string) (colli : Z) (peso : Q) (p : GLSParcel)
    (parcels : list GLSParcel) :
  (tag_of (parcels_tree format_2f parcels) = "Info"
   /\ children_of (parcels_tree format_2f parcels)
      = List.map (parcel_element format_2f) parcels
   /\ Forall filled_leaf (children_of (parcel_element format_2f p)))
  /\ (_create_parcel row_data colli peso = Some p ->
      let tags := field_tags (parcel_element format_2f p) in
      "RagioneSociale" ∈ tags /\ "Indirizzo" ∈ tags /\ "Zipcode" ∈ tags
      /\ "Colli" ∈ tags
      /\ ("Contrassegno" ∉ tags) /\ ("ImportoAssicurato" ∉ tags)).
Proof.
  split.
  { split; [reflexivity|]. split; [reflexivity | apply fields_filled]. }
  unfold _create_parcel.
  destruct (PyStr.truthy (get_str row_data "ragione_sociale")) eqn:Hname;
    [|discriminate].
  destruct (PyStr.truthy (get_str row_data "indirizzo")) eqn:Haddr; [|discriminate].
  cbn [negb orb]. cbv zeta. intros Hp. injection Hp as <-.
  unfold new_GLSParcel, post_init.
  split; [|split; [|split; [|split; [|split]]]].
  - eapply field_present; [cbn; do 0 right; left|].
    apply truthy_truncate. exact Hname.
  - eapply field_present; [cbn; do 1 right; left|].
    apply truthy_truncate. exact Haddr.
  - eapply field_present; [cbn; do 3 right; left|]. apply truthy_zipcode.
  - eapply field_present; [cbn; do 5 right; left|]. apply of_int_truthy.
  - apply field_absent. intros v Hin. cbn in Hin.
    repeat (apply elem_of_cons in Hin as [Heq|Hin];
            [inversion Heq; reflexivity|]).
    inversion Hin.
  - apply field_absent. intros v Hin. cbn in Hin.
    repeat (apply elem_of_cons in Hin as [Heq|Hin];
            [inversion Heq; reflexivity|]).
    inversion Hin.
Qed.

(** A row with a company name and an address. *)
Lemma request_document_fields_witness :
  let p := new_GLSParcel "Uno" "Via A 1" "Roma" "00100" "rm" 1 (3 # 1) "" "" "" "" in
  "Zipcode" ∈ field_tags (parcel_element (fun _ => "3.00") p)
  /\ ("Contrassegno" ∉ field_tags (parcel_element (fun _ => "3.00") p)).
Proof.
  intros p.
  destruct (request_document_fields (fun _ => "3.00") (sample_row "Uno" "Via A 1")
              1 (3 # 1) p []) as [_ H].
  destruct H as (_ & _ & Hzip & _ & Hcod & _); [vm_compute; reflexivity|].
  split; [exact Hzip | exact Hcod].
Defined.

(** ** The other remote operations *)

Section Shipments.
Context (E : Env).

Lemma shipment_fold_lookup (cs : list Element) (m : gmap string string) (k : string) :
  fold_left (fun shipment child =>
               <[tag_of child := default "" (text_of child)]> shipment) cs m !! k
  = match last (List.map (fun c => default "" (text_of c))
                  (List.filter (fun c => String.eqb (tag_of c) k) cs)) with
    | Some t => Some t
    | None => m !! k
    end.
Proof.
  revert m. induction cs as [|c cs IH]; intros m; [reflexivity|].
  cbn [fold_left List.filter]. rewrite IH.
  destruct (String.eqb_spec (tag_of c) k) as [Heq|Hne].
  - cbn [List.map]. rewrite last_cons.
    destruct (last _); [reflexivity|]. rewrite Heq, lookup_insert_eq. reflexivity.
  - destruct (last _); [reflexivity|]. rewrite lookup_insert_ne by exact Hne. reflexivity.
Qed.

Lemma shipment_of_lookup (sped : Element) (k : string) :
  shipment_of sped !! k = last (field_texts k sped).
Proof.
  unfold shipment_of, field_texts. rewrite shipment_fold_lookup.
  destruct (last _); [reflexivity | apply lookup_empty].
Qed.

End Shipments.

(** X15. Reading a shipment list never fails: an answer that is not
    well-formed gives the empty list; otherwise there is one dictionary per
    [Spedizione] element of the document (per [spedizione] element only
    when there is no [Spedizione]), in document order, and under each tag
    it holds the text of the last child of that tag, empty if the child has
    no text. *)
Theorem list_shipments_parsing (E : Env) (xml : string) :
  match fromstring E xml with
  | inl _ => _parse_list_shipments_response E xml = []
  | inr root =>
      let found := list_or (findall "Spedizione" root) (findall "spedizione" root) in
      length (_parse_list_shipments_response E xml) = length found
      /\ forall i sped, found !! i = Some sped ->
           exists d, _parse_list_shipments_response E xml !! i = Some d
                     /\ forall k, d !! k = last (field_texts k sped)
  end.
Proof.
  unfold _parse_list_shipments_response.
  destruct (fromstring E xml) as [e|root]; [reflexivity|].
  cbv zeta. split; [apply length_map|].
  intros i sped Hi. exists (shipment_of sped). split.
  - change (List.map shipment_of) with (fmap (M := list) shipment_of).
    rewrite list_lookup_fmap, Hi. reflexivity.
  - intros k. apply shipment_of_lookup.
Qed.

Section RemoteOutcomes.
Context (E : Env) (cfg : Config) (credentials : GLSCredentials).

Lemma reported_close (xml : string) : reported E xml (_parse_close_work_day_response E xml).
Proof.
  unfold reported, _parse_close_work_day_response.
  destruct (fromstring E xml); [split; reflexivity | reflexivity].
Qed.

Lemma remote_outcome {A} (op : Operation) (parse : string -> A) (s : St) :
  let run := _execute_with_retry E cfg op s in
  (result <- _execute_with_retry E cfg op ;; ret (parse result)) s
  = (match fst run with Ok xml => Ok (parse xml) | Raise e => Raise e end, snd run)
  /\ same_ledger s (snd run)
  /\ match fst run with Ok _ => True | Raise e => is_client_error e end.
Proof.
  intros run. subst run.
  pose proof (_execute_with_retry_raises E cfg op s) as Hraise.
  destruct (execute_with_retry_spec E cfg op s)
    as (c & r & s1 & Hrun & _ & _ & _ & Hsame & _).
  unfold bind. rewrite Hrun in *. cbn [fst snd] in *.
  split; [destruct r; reflexivity|]. split; [exact Hsame|].
  destruct r; [exact I | exact Hraise].
Qed.

End RemoteOutcomes.

(** X16. [close_work_day] and [delete_shipment] raise nothing but
    [GLSClientError], and only when the call is not answered within the
    retry policy; they leave the ledger and the result alone. An answer
    that is not well-formed is not an exception: it is reported as a
    failure with outcome [KO]; for a well-formed answer, success means that
    the outcome read from it is [OK] in any letter case. *)
Theorem remote_outcomes (E : Env) (cfg : Config) (credentials : GLSCredentials)
    (shipment_id : string) (s : St) :
  let outcome (op : Operation) (c : M CloseResult) :=
    let run := _execute_with_retry E cfg op s in
    snd (c s) = snd run /\ same_ledger s (snd (c s))
    /\ match fst run with
       | Ok xml => exists r, fst (c s) = Ok r /\ reported E xml r
       | Raise e => fst (c s) = Raise e /\ is_client_error e
       end in
  outcome (CloseWorkDay credentials) (close_work_day E cfg credentials)
  /\ outcome (DeleteSped credentials shipment_id)
       (delete_shipment E cfg credentials shipment_id).
Proof.
  intros outcome. subst outcome. cbv beta. split.
  - destruct (remote_outcome E cfg (CloseWorkDay credentials)
                (_parse_close_work_day_response E) s) as (Hrun & Hsame & Hraise).
    unfold close_work_day. rewrite Hrun. cbn [fst snd].
    split; [reflexivity|]. split; [exact Hsame|].
    destruct (fst (_execute_with_retry E cfg (CloseWorkDay credentials) s)) as [xml|e].
    + eexists. split; [reflexivity | apply reported_close].
    + split; [reflexivity | exact Hraise].
  - unfold delete_shipment.
    pose proof (_execute_with_retry_raises E cfg (DeleteSped credentials shipment_id) s)
      as Hraise.
    destruct (execute_with_retry_spec E cfg (DeleteSped credentials shipment_id) s)
      as (c & r & s1 & Hrun & _ & _ & _ & Hsame & _).
    unfold bind. rewrite Hrun in *. cbn [fst snd] in *.
    destruct r as [xml|e]; cbn [fst snd ret].
    + split; [reflexivity|]. split; [exact Hsame|].
      eexists. split; [reflexivity|]. unfold reported.
      destruct (fromstring E xml); [split; reflexivity | reflexivity].
    + split; [reflexivity|]. split; [exact Hsame|]. split; [reflexivity | exact Hraise].
Qed.

(** ** When the work day is closed *)

Section Emits.
Context (P : Event -> Prop).

Lemma emits_refl (s : St) : emits P s s.
Proof. exists []. rewrite app_nil_r. split; [reflexivity | constructor]. Qed.

Lemma emits_trans (s1 s2 s3 : St) : emits P s1 s2 -> emits P s2 s3 -> emits P s1 s3.
Proof.
  intros (e1 & H1 & Hp1) (e2 & H2 & Hp2). exists (e1 ++ e2).
  rewrite H2, H1, app_assoc. split; [reflexivity | apply Forall_app; split; assumption].
Qed.

Lemma emits_same_trace {A} (c : M A) :
  (forall s, trace (snd (c s)) = trace s) -> steps (emits P) c.
Proof.
  intros Hc s. exists []. rewrite app_nil_r, Hc. split; [reflexivity | constructor].
Qed.

Lemma emits_emit (e : Event) : P e -> steps (emits P) (emit e).
Proof.
  intros He s. msimpl. exists [e]. split; [reflexivity | repeat constructor; exact He].
Qed.

End Emits.

Lemma attempt_events_forall (P : Event -> Prop) (cfg : Config) (op : Operation)
    (k c : nat) :
  P (EvCall op) -> (forall z, P (EvSleep z)) -> Forall P (attempt_events cfg op k c).
Proof.
  intros Hcall Hsleep. revert k. induction c as [|c IH]; intros k; [constructor|].
  destruct c as [|c].
  - cbn. repeat constructor. exact Hcall.
  - change (attempt_events cfg op k (S (S c)))
      with (EvCall op :: EvSleep (GLS_RETRY_DELAY cfg * 2 ^ Z.of_nat k)
              :: attempt_events cfg op (S k) (S c)).
    constructor; [exact Hcall|]. constructor; [apply Hsleep | apply IH].
Qed.

Section CloseFacts.
Context (E : Env) (cfg : Config) (credentials : GLSCredentials).

Local Abbreviation quiet := (emits not_close).

Lemma add_parcels_quiet (batch : list GLSParcel) (pdf : bool) :
  steps quiet (add_parcels E cfg credentials batch pdf).
Proof.
  intros s. unfold add_parcels.
  destruct (GLS_MAX_PARCELS_PER_BATCH cfg <? length batch)%nat; [apply emits_refl|].
  destruct batch as [|p batch]; [apply emits_refl|].
  unfold bind.
  destruct (execute_with_retry_spec E cfg (AddParcel credentials (p :: batch) pdf) s)
    as (c & r & s' & Hrun & _ & Htr & _).
  rewrite Hrun. assert (Hstep : quiet s s').
  { eexists. split; [exact Htr|]. apply Forall_app. split.
    - destruct (client_open s); repeat constructor.
    - apply attempt_events_forall; [reflexivity | intros z; reflexivity]. }
  destruct r; exact Hstep.
Qed.

Lemma now_quiet : steps quiet (now E).
Proof.
  unfold now. apply steps_get_bind. intros s.
  apply (steps_bind _ (emits_trans not_close)).
  - apply emits_emit. reflexivity.
  - intros _. apply steps_ret, emits_refl.
Qed.

Lemma modify_quiet (f : St -> St) :
  (forall s, trace (f s) = trace s) -> steps quiet (modify f).
Proof. intros Hf. apply emits_same_trace. intros s. msimpl. apply Hf. Qed.

Lemma _save_quiet : steps quiet (_save E).
Proof.
  unfold _save. apply steps_get_bind. intros s.
  apply (steps_bind _ (emits_trans not_close)).
  - apply emits_emit. reflexivity.
  - intros _. destruct (io E (trace s)).
    + apply modify_quiet. reflexivity.
    + apply steps_raise, emits_refl.
    + apply (steps_bind _ (emits_trans not_close));
        [apply modify_quiet; reflexivity | intros _; apply steps_raise, emits_refl].
    + apply (steps_bind _ (emits_trans not_close));
        [apply modify_quiet; reflexivity | intros _; apply steps_raise, emits_refl].
Qed.

Lemma mark_uploaded_quiet (file_path : string) (idx : Z) (row_data : gmap string string)
    (shipment_id : string) (response_data : option (gmap string string)) :
  steps quiet (mark_uploaded E file_path idx row_data shipment_id response_data).
Proof.
  unfold mark_uploaded.
  apply (steps_bind _ (emits_trans not_close)); [apply now_quiet|].
  intros uploaded_at.
  apply (steps_bind _ (emits_trans not_close)); [apply modify_quiet; reflexivity|].
  intros _.
  apply (steps_bind _ (emits_trans not_close)); [apply now_quiet|].
  intros timestamp.
  apply (steps_bind _ (emits_trans not_close)); [apply modify_quiet; reflexivity|].
  intros _. apply _save_quiet.
Qed.

Lemma _upload_batches_quiet (parcels : list GLSParcel)
    (row_indices : list (Z * gmap string string)) (file_path : string)
    (generate_pdf : bool) :
  steps quiet (_upload_batches E cfg credentials parcels row_indices file_path generate_pdf).
Proof.
  unfold _upload_batches.
  destruct (GLS_MAX_PARCELS_PER_BATCH cfg =? 0)%nat; [apply steps_raise, emits_refl|].
  apply (steps_for_each _ (emits_refl not_close) (emits_trans not_close)).
  intros batch_start _. unfold upload_batch.
  apply (steps_try _ (emits_trans not_close)).
  - apply (steps_bind _ (emits_trans not_close)); [apply add_parcels_quiet|].
    intros responses.
    apply (steps_for_enumerate _ (emits_refl not_close) (emits_trans not_close)).
    intros j x. unfold reconcile.
    destruct (_ !! j) as [[idx row_data]|]; [|apply steps_raise, emits_refl].
    destruct (is_success x).
    + apply (steps_bind _ (emits_trans not_close)); [apply modify_quiet; reflexivity|].
      intros _. apply mark_uploaded_quiet.
    + apply modify_quiet. reflexivity.
  - intros m. apply (steps_for_each _ (emits_refl not_close) (emits_trans not_close)).
    intros [idx row_data] _. apply modify_quiet. reflexivity.
Qed.

(** The closing step: the attempts of one [CloseWorkDay] call and nothing
    else. *)
Lemma close_step_events (s : St) :
  let s' := snd (try_except_GLSClientError
            (close_result <- close_work_day E cfg credentials ;;
             if negb (cw_success close_result)
             then modify (set_result
                    (append_error ("CloseWorkDay: " +:+ cw_error close_result)))
             else ret tt)
            (fun e => modify (set_result (append_error ("CloseWorkDay fallito: " +:+ e))))
            s) in
  exists closing,
    trace s' = trace s ++ closing
    /\ submitted closing = []
    /\ (call_count closing <= GLS_RETRY_ATTEMPTS cfg)%nat
    /\ Forall (fun e => is_call e = true -> e = EvCall (CloseWorkDay credentials)) closing.
Proof.
  unfold try_except_GLSClientError, close_work_day, bind.
  destruct (execute_with_retry_spec E cfg (CloseWorkDay credentials) s)
    as (c & r & s1 & Hrun & Hc & Htr & Hcount & _).
  rewrite Hrun.
  assert (Hevents :
    submitted ((if client_open s then [] else [EvConnect])
               ++ attempt_events cfg (CloseWorkDay credentials) 0 c) = []
    /\ (call_count ((if client_open s then [] else [EvConnect])
                    ++ attempt_events cfg (CloseWorkDay credentials) 0 c)
        <= GLS_RETRY_ATTEMPTS cfg)%nat
    /\ Forall (fun e => is_call e = true -> e = EvCall (CloseWorkDay credentials))
         ((if client_open s then [] else [EvConnect])
          ++ attempt_events cfg (CloseWorkDay credentials) 0 c)).
  { split; [|split].
    - rewrite submitted_app, submitted_other_op by discriminate.
      destruct (client_open s); reflexivity.
    - unfold call_count in *. rewrite List.filter_app, length_app, Hcount.
      destruct (client_open s); cbn; lia.
    - apply Forall_app. split.
      + destruct (client_open s); repeat constructor. discriminate.
      + apply attempt_events_forall; [reflexivity | discriminate]. }
  assert (Htrace : forall s2, trace s2 = trace s1 ->
            exists closing,
              trace s2 = trace s ++ closing
              /\ submitted closing = []
              /\ (call_count closing <= GLS_RETRY_ATTEMPTS cfg)%nat
              /\ Forall (fun e => is_call e = true -> e = EvCall (CloseWorkDay credentials))
                   closing).
  { intros s2 Hs2. eexists. rewrite Hs2. split; [exact Htr | exact Hevents]. }
  destruct r as [xml|e]; cbn [ret].
  - destruct (negb _); apply Htrace; reflexivity.
  - destruct e; apply Htrace; reflexivity.
Qed.

Lemma upload_and_close_events (file_path : string) (generate_pdf close_workday : bool)
    (pa : list GLSParcel) (ri : list (Z * gmap string string)) (s : St) :
  let run := upload_and_close E cfg credentials file_path generate_pdf close_workday
               pa ri s in
  exists uploading closing,
    trace (snd run) = trace s ++ uploading ++ closing
    /\ Forall not_close uploading
    /\ submitted closing = []
    /\ (call_count closing <= GLS_RETRY_ATTEMPTS cfg)%nat
    /\ Forall (fun e => is_call e = true -> e = EvCall (CloseWorkDay credentials)) closing
    /\ (close_workday = false -> closing = [])
    /\ match fst run with
       | Ok _ => uploaded (result (snd run)) = 0%nat -> closing = []
       | Raise _ => closing = []
       end.
Proof.
  intros run.
  assert (Hrun : upload_and_close E cfg credentials file_path generate_pdf close_workday
                   pa ri s = run) by reflexivity.
  clearbody run. destruct run as [r s']. cbn [fst snd].
  unfold upload_and_close in Hrun. unfold bind at 1 in Hrun.
  assert (Hquiet : emits not_close s
            (snd ((match pa with
                   | [] => ret tt
                   | _ :: _ => _upload_batches E cfg credentials pa ri file_path generate_pdf
                   end) s))).
  { destruct pa; [apply emits_refl | apply _upload_batches_quiet]. }
  destruct ((match pa with
             | [] => ret tt
             | _ :: _ => _upload_batches E cfg credentials pa ri file_path generate_pdf
             end) s) as [[[]|e] s2].
  - cbn [snd] in Hquiet. destruct Hquiet as (uploading & Htr2 & Hup).
    unfold bind at 1, get in Hrun. cbn beta iota in Hrun.
    destruct close_workday; cbn [andb] in Hrun.
    + destruct (0 <? uploaded (result s2))%nat eqn:Hpos.
      * destruct (close_step_events s2) as (closing & Htrc & Hsub & Hcount & Hall).
        destruct (close_step_same_counts E cfg credentials s2) as [(Hu & _) [r0 Hok]].
        rewrite Hrun in Htrc, Hu, Hok. cbn [fst snd] in *. subst r.
        exists uploading, closing.
        split; [rewrite Htrc, Htr2, app_assoc; reflexivity|].
        split; [exact Hup|]. split; [exact Hsub|]. split; [exact Hcount|].
        split; [exact Hall|]. split; [discriminate|].
        intros Hzero. rewrite Hu in Hzero. apply Nat.ltb_lt in Hpos. lia.
      * injection Hrun as <- <-.
        exists uploading, []. rewrite app_nil_r.
        split; [exact Htr2|].
        split; [exact Hup|]. split; [reflexivity|]. split; [cbn; lia|].
        split; [constructor|]. split; reflexivity.
    + injection Hrun as <- <-.
      exists uploading, []. rewrite app_nil_r.
      split; [exact Htr2|].
      split; [exact Hup|]. split; [reflexivity|]. split; [cbn; lia|].
      split; [constructor|]. split; reflexivity.
  - cbn [snd] in Hquiet. destruct Hquiet as (uploading & Htr2 & Hup).
    injection Hrun as <- <-.
    exists uploading, []. rewrite app_nil_r.
    split; [exact Htr2|].
    split; [exact Hup|]. split; [reflexivity|]. split; [cbn; lia|].
    split; [constructor|]. split; reflexivity.
Qed.

End CloseFacts.

(** X17. [process_file] closes the work day only on request, only after
    all the uploads, and only if it uploaded something: the history of a
    run is the events of the uploads, none of them a [CloseWorkDay] attempt,
    followed by the events of the closing step, which are the attempts of
    one [CloseWorkDay] call with the credentials of the client, at most
    [GLS_RETRY_ATTEMPTS] of them. The closing step is empty when
    [close_workday] is off, when the run ends with an exception, and when
    the result counts no uploaded row. *)
Theorem close_workday_discipline (E : Env) (cfg : Config) (credentials : GLSCredentials)
    (skip_uploaded : bool) (file_path : string) (colli : Z) (peso : Q)
    (generate_pdf close_workday : bool)
    (df : list (Z * gmap string string)) (y : Sys) :
  let run := process_file E cfg credentials skip_uploaded file_path colli peso
               generate_pdf close_workday df y in
  exists uploading closing,
    sys_trace (snd run) = sys_trace y ++ uploading ++ closing
    /\ Forall not_close uploading
    /\ submitted closing = []
    /\ (call_count closing <= GLS_RETRY_ATTEMPTS cfg)%nat
    /\ Forall (fun e => is_call e = true -> e = EvCall (CloseWorkDay credentials)) closing
    /\ (close_workday = false -> closing = [])
    /\ match fst run with
       | Ok res => uploaded res = 0%nat -> closing = []
       | Raise _ => closing = []
       end.
Proof.
  intros run. subst run. unfold process_file.
  set (t0 := _get_tracker E file_path y).
  set (s00 := {| trace := sys_trace y; disk := sys_disk y;
                 client_open := sys_client_open y; tracker := t0;
                 result := empty_result |}).
  set (s0 := set_result (set_total (length df)) s00).
  destruct (prepare_spec_gen E skip_uploaded file_path colli peso df [] [] s0)
    as (s1 & Hprep & Htr1 & _).
  cbn [app] in Hprep. change (tracker s0) with t0 in *.
  set (pa := sent_parcels E skip_uploaded file_path t0 colli peso df) in *.
  set (ri := sent_rows E skip_uploaded file_path t0 colli peso df) in *.
  assert (Hrows : process_rows E cfg credentials skip_uploaded file_path colli peso
                    generate_pdf close_workday df s00
                  = upload_and_close E cfg credentials file_path generate_pdf close_workday
                      pa ri s1).
  { unfold process_rows, bind at 1 2, modify. fold s0. rewrite Hprep. reflexivity. }
  rewrite Hrows.
  pose proof (upload_and_close_events E cfg credentials file_path generate_pdf
                close_workday pa ri s1) as Hev.
  destruct (upload_and_close E cfg credentials file_path generate_pdf close_workday
              pa ri s1) as [r s'].
  cbn [fst snd sys_trace] in *.
  destruct Hev as (uploading & closing & Htr & Hup & Hsub & Hcount & Hall & Hoff & Hend).
  exists uploading, closing.
  split; [rewrite Htr, Htr1; reflexivity|].
  split; [exact Hup|]. split; [exact Hsub|]. split; [exact Hcount|].
  split; [exact Hall|]. split; [exact Hoff|].
  destruct r; exact Hend.
Qed.

(** ** Attempts that are not retried *)

(** X18. What [_execute_with_retry] does outside the retry cycle. If the
    session cannot be opened, no call is made, the error raised is
    [Impossibile connettersi a GLS] and the session stays closed, so the
    next operation tries to open it again. With a session, an answer on the
    first attempt is returned after that single call, and an error that is
    neither a Fault nor a TransportError is not retried: one call, no
    sleep, [Errore imprevisto]. With [GLS_RETRY_ATTEMPTS] set to zero no
    call is made at all and the error raised reports [None] as the last
    error. *)
Theorem attempts_not_retried (E : Env) (cfg : Config) (op : Operation) (s : St) :
  let run := _execute_with_retry E cfg op s in
  (forall e, client_open s = false -> connect E (trace s) = Some e ->
     fst run = Raise (GLSClientError ("Impossibile connettersi a GLS: " +:+ e))
     /\ trace (snd run) = trace s ++ [EvConnect]
     /\ client_open (snd run) = false)
  /\ (client_open s = true -> (0 < GLS_RETRY_ATTEMPTS cfg)%nat ->
      (forall xml, soap E (trace s) op = Returned xml ->
         fst run = Ok xml /\ trace (snd run) = trace s ++ [EvCall op])
      /\ (forall e, soap E (trace s) op = Unexpected e ->
            fst run = Raise (GLSClientError ("Errore imprevisto: " +:+ e))
            /\ trace (snd run) = trace s ++ [EvCall op]))
  /\ (client_open s = true -> GLS_RETRY_ATTEMPTS cfg = 0%nat ->
      fst run = Raise (GLSClientError "Fallito dopo 0 tentativi: None")
      /\ trace (snd run) = trace s).
Proof.
  intros run. subst run. split; [|split].
  - intros e Hclosed Hconn. unfold _execute_with_retry, _get_client. msimpl.
    rewrite Hclosed. cbn [fst snd trace client_open]. rewrite Hconn.
    cbn [fst snd trace client_open]. repeat split. exact Hclosed.
  - intros Hopen Hpos. unfold _execute_with_retry, _get_client. msimpl.
    rewrite Hopen. cbn [fst snd].
    destruct (GLS_RETRY_ATTEMPTS cfg) as [|n] eqn:Hn; [lia|].
    cbn [seq retry_loop]. unfold call. msimpl.
    split.
    + intros xml Hsoap. rewrite Hsoap. cbn [fst snd trace]. split; reflexivity.
    + intros e Hsoap. rewrite Hsoap. cbn [fst snd trace]. split; reflexivity.
  - intros Hopen Hzero. unfold _execute_with_retry, _get_client. msimpl.
    rewrite Hopen, Hzero. cbn [fst snd seq retry_loop]. rewrite Hzero.
    split; reflexivity.
Qed.

(** A service that answers at once, on an open session. *)
Lemma attempts_not_retried_witness :
  let s := set_client_open true fresh_state in
  fst (_execute_with_retry env_scenario config (CloseWorkDay sample_credentials) s)
  = Ok "<Info>...</Info>".
Proof.
  intros s.
  destruct (attempts_not_retried env_scenario config (CloseWorkDay sample_credentials) s)
    as (_ & Hfirst & _).
  destruct Hfirst as [Hret _]; [reflexivity | cbn; lia |].
  apply (Hret "<Info>...</Info>"). reflexivity.
Defined.

(** ** The records of the other rows *)

